(** * kpireport.plugins.prometheus: the alert window aggregator

    A shallow embedding of [PrometheusAlertSummary]
    (src/kpireport/plugins/prometheus.py): resolution parsing, window
    construction, window compression, total firing time, ranking and the
    timeline, together with the pandas operations the view applies to the
    query result.

    Conventions.
    - Instants ([pandas.Timestamp]) and durations ([datetime.timedelta],
      [pandas.Timedelta]) are integers counting nanoseconds, as pandas
      stores them; they are assumed to stay inside pandas' representable
      range, so no overflow of [Timestamp + timedelta] is modelled.
    - A Python exception is a value of [exn]; code that may raise returns a
      [result]. *)

From Stdlib Require Import String Ascii.
From Stdlib Require Import ZArith List Bool Lia.
From Stdlib Require Import Sorting.Sorted Sorting.Permutation.
From Stdlib Require Import SpecFloat.
Import ListNotations.

Open Scope Z_scope.

(** ** Exceptions and the error monad *)

Inductive exn : Type :=
| ValueError (msg : string)
| KeyError (key : string)
| TypeError (msg : string)
| OverflowError
| ZeroDivisionError.

Inductive result (A : Type) : Type :=
| Ok (a : A)
| Err (e : exn).

Arguments Ok {A} a.
Arguments Err {A} e.

Definition bind {A B : Type} (m : result A) (k : A -> result B) : result B :=
  match m with
  | Ok a => k a
  | Err e => Err e
  end.

Notation "x <- m ;; k" := (bind m (fun x => k))
  (at level 61, m at next level, right associativity).

(** A [for] loop that builds a list and stops at the first exception. *)
Fixpoint mapM {A B : Type} (f : A -> result B) (l : list A) : result (list B) :=
  match l with
  | [] => Ok []
  | x :: l' => y <- f x ;; ys <- mapM f l' ;; Ok (y :: ys)
  end.

(** ** Resolution parsing ([_parse_resolution], lines 99-126) *)

(** [datetime.timedelta], in nanoseconds. *)
Definition timedelta : Type := Z.

Definition is_digit (c : ascii) : bool :=
  ((48 <=? nat_of_ascii c) && (nat_of_ascii c <=? 57))%nat.

(** The character class [[smhdwy]]. *)
Definition is_unit (c : ascii) : bool :=
  existsb (Ascii.eqb c) ["s"; "m"; "h"; "d"; "w"; "y"]%char.

(** The greedy [[0-9]+]: the longest run of digits at the start of the
    string, and what follows it. *)
Fixpoint span_digits (s : string) : string * string :=
  match s with
  | String c s' =>
      if is_digit c
      then let (ds, rest) := span_digits s' in (String c ds, rest)
      else (EmptyString, s)
  | EmptyString => (EmptyString, EmptyString)
  end.

(** [re.match(RESOLUTION_REGEX, res)] with
    [RESOLUTION_REGEX = "([0-9]+)([smhdwy])"]: the match is anchored at the
    start of the string only.  The result is [(group(1), group(2))].  A
    unit is not a digit, so giving digits back cannot produce a match the
    longest run misses ([re_match_complete] below). *)
Definition re_match (res : string) : option (string * ascii) :=
  match span_digits res with
  | (EmptyString, _) => None
  | (ds, String u _) => if is_unit u then Some (ds, u) else None
  | (_, EmptyString) => None
  end.

(** [int(match.group(1))] on a string of ASCII digits, of any length (the
    interpreter's optional limit on the number of digits is not
    modelled). *)
Definition digit_value (c : ascii) : Z := Z.of_nat (nat_of_ascii c) - 48.

Fixpoint int_acc (acc : Z) (ds : string) : Z :=
  match ds with
  | EmptyString => acc
  | String c ds' => int_acc (10 * acc + digit_value c) ds'
  end.

Definition int (ds : string) : Z := int_acc 0 ds.

(** The keyword names of the [mapping] dictionary. *)
Inductive timedelta_kwarg : Type :=
| seconds | minutes | hours | days | weeks | years.

Definition mapping (u : ascii) : option timedelta_kwarg :=
  if Ascii.eqb u "s" then Some seconds
  else if Ascii.eqb u "m" then Some minutes
  else if Ascii.eqb u "h" then Some hours
  else if Ascii.eqb u "d" then Some days
  else if Ascii.eqb u "w" then Some weeks
  else if Ascii.eqb u "y" then Some years
  else None.

Definition NS_PER_SECOND : Z := 1000000000.

(** Seconds in one unit of a keyword [datetime.timedelta] accepts. *)
Definition seconds_per (kw : timedelta_kwarg) : Z :=
  match kw with
  | seconds => 1
  | minutes => 60
  | hours => 3600
  | days => 86400
  | weeks => 604800
  | years => 0
  end.

(** [timedelta] called with the single keyword [kw = n].
    [datetime.timedelta] has no [years] keyword and raises [TypeError] for
    it; it raises [OverflowError] when the number of days leaves
    [-999999999, 999999999]. *)
Definition timedelta_of (kw : timedelta_kwarg) (n : Z) : result timedelta :=
  match kw with
  | years => Err (TypeError "'years' is an invalid keyword argument")
  | _ =>
      let secs := n * seconds_per kw in
      if Z.abs (secs / 86400) >? 999999999
      then Err OverflowError
      else Ok (secs * NS_PER_SECOND)
  end.

Definition invalid_resolution : exn := ValueError "Invalid resolution format".

Definition _parse_resolution (res : string) : result timedelta :=
  match re_match res with
  | None => Err invalid_resolution
  | Some (g1, g2) =>
      match mapping g2 with
      | Some kw => timedelta_of kw (int g1)
      | None => Err (KeyError (String g2 EmptyString))
      end
  end.

(** *** What the claim calls the pattern *)

Fixpoint all_digits (s : string) : bool :=
  match s with
  | EmptyString => true
  | String c s' => is_digit c && all_digits s'
  end.

(** [s] begins with [<integer><unit>]: digits [ds], unit [u], then [rest]. *)
Definition resolution_prefix (s ds : string) (u : ascii) (rest : string) : Prop :=
  s = (ds ++ String u rest)%string /\ ds <> EmptyString /\
  all_digits ds = true /\ is_unit u = true.

(** [s] is exactly [<integer><unit>]. *)
Definition resolution_pattern (s : string) : Prop :=
  exists ds u, resolution_prefix s ds u EmptyString.

Definition has_resolution_prefix (s : string) : Prop :=
  exists ds u rest, resolution_prefix s ds u rest.

(** The units [datetime.timedelta] has a keyword for. *)
Definition is_timedelta_unit (c : ascii) : bool :=
  existsb (Ascii.eqb c) ["s"; "m"; "h"; "d"; "w"]%char.

(** The number of seconds in one unit. *)
Definition unit_seconds (u : ascii) : Z :=
  match mapping u with
  | Some kw => seconds_per kw
  | None => 0
  end.

(** The largest number of seconds a [timedelta] holds: 999999999 days and
    86399 seconds. *)
Definition MAX_SECONDS : Z := 86399999999999.

(** ** Python's stable sort ([sorted]) *)

Section StableSort.
Context {A : Type}.
Variable leb : A -> A -> bool.

(** [x] goes in front of the first element it is not after, and so in
    front of every element that compares equal to it. *)
Fixpoint insert_sorted (x : A) (l : list A) : list A :=
  match l with
  | [] => [x]
  | y :: l' => if leb x y then x :: y :: l' else y :: insert_sorted x l'
  end.

Definition stable_sort (l : list A) : list A :=
  fold_right insert_sorted [] l.

End StableSort.

(** [sorted(l, key=key, reverse=reverse)] for an integer key.  The sort is
    stable; with [reverse=True] elements with equal keys still keep the
    order they have in [l]. *)
Definition sorted {A : Type} (key : A -> Z) (reverse : bool) (l : list A) : list A :=
  stable_sort
    (fun x y => if reverse then key y <=? key x else key x <=? key y) l.

(** The order [sorted] puts keys in. *)
Definition key_order {A : Type} (key : A -> Z) (reverse : bool) (x y : A) : Prop :=
  if reverse then key y <= key x else key x <= key y.

(** ** Windows *)

(** A two-element list [[start, end]]. *)
Definition Window : Type := (Z * Z)%type.

(** [windows[-1]]; the lists it is applied to are never empty. *)
Definition last_window (windows : list Window) : Window :=
  last windows (0, 0).

(** The assignment [windows[-1][1] = e]. *)
Definition set_last_end (windows : list Window) (e : Z) : list Window :=
  match windows with
  | [] => []
  | _ => removelast windows ++ [(fst (last_window windows), e)]
  end.

(** *** Window construction ([_compute_time_windows], lines 128-142) *)

(** The body of the loop over [list_ts]. *)
Definition compute_step (resolution : timedelta)
    (windows : list Window) (ts : Z) : list Window :=
  if ts >? snd (last_window windows)
  then windows ++ [(ts, ts + resolution)]
  else set_last_end windows (ts + resolution).

(** The loop runs over the whole of [list_ts], its first element
    included. *)
Definition _compute_time_windows (resolution : timedelta)
    (list_ts : list Z) : list Window :=
  match list_ts with
  | [] => []
  | t0 :: _ => fold_left (compute_step resolution) list_ts [(t0, t0 + resolution)]
  end.

(** The construction as the specification words it: a running window, and
    the timestamps after the first. *)
Fixpoint spec_windows_from (resolution : Z) (cur : Window) (ts : list Z)
  : list Window :=
  match ts with
  | [] => [cur]
  | t :: ts' =>
      if snd cur <? t
      then cur :: spec_windows_from resolution (t, t + resolution) ts'
      else spec_windows_from resolution (fst cur, t + resolution) ts'
  end.

Definition spec_compute_time_windows (resolution : Z) (ts : list Z)
  : list Window :=
  match ts with
  | [] => []
  | t1 :: rest => spec_windows_from resolution (t1, t1 + resolution) rest
  end.

(** *** Window compression ([_compress_time_windows], lines 144-152) *)

(** The body of the loop over [sorted_windows[1:]]. *)
Definition compress_step (compressed : list Window) (w : Window) : list Window :=
  let '(start, end_) := w in
  if start <? snd (last_window compressed)
  then set_last_end compressed (Z.max (snd (last_window compressed)) end_)
  else compressed ++ [(start, end_)].

Definition _compress_time_windows (windows : list Window) : list Window :=
  let sorted_windows := sorted fst false windows in
  fold_left compress_step (skipn 1 sorted_windows) (firstn 1 sorted_windows).

(** The merge as the specification words it, on windows already sorted. *)
Fixpoint spec_merge_from (cur : Window) (ws : list Window) : list Window :=
  match ws with
  | [] => [cur]
  | (s, e) :: ws' =>
      if s <? snd cur
      then spec_merge_from (fst cur, Z.max (snd cur) e) ws'
      else cur :: spec_merge_from (s, e) ws'
  end.

Definition spec_merge (ws : list Window) : list Window :=
  match ws with
  | [] => []
  | w :: ws' => spec_merge_from w ws'
  end.

(** *** Total firing time ([_total_time], lines 154-156) *)

Definition _total_time (windows : list Window) : timedelta :=
  fold_left (fun agg x => agg + (snd x - fst x)) windows 0.

(** The sum of [(end - start)] over the windows. *)
Fixpoint sum_durations (ws : list Window) : Z :=
  match ws with
  | [] => 0
  | w :: ws' => (snd w - fst w) + sum_durations ws'
  end.

(** Window shapes used by the statements below. *)
Definition well_formed (w : Window) : Prop := fst w <= snd w.

(** Starts ascend and every window starts at or after the end of the one
    before it. *)
Fixpoint ordered_disjoint (ws : list Window) : Prop :=
  match ws with
  | [] => True
  | w :: ws' =>
      match ws' with
      | [] => True
      | w' :: _ => fst w <= fst w' /\ snd w <= fst w'
      end /\ ordered_disjoint ws'
  end.

(** ** The query result

    [PrometheusDatasource.query] (lines 27-68) builds one frame per series,
    with the columns [time] and [value] followed by the labels of the
    series, and appends the frames in the order the server lists the
    series.  When the server lists no series the result is
    [pd.DataFrame()], which has no columns at all. *)

(** One row.  A label the series does not carry is NaN in its column
    ([label] returns [None]).  The float in the [value] column is never read
    by the view and is not NaN for [ALERTS] samples, so rows do not carry
    it.  No label is called [time] or [value]. *)
Record Sample : Type := mkSample {
  time : Z;
  metric : list (string * string)
}.

Record DataFrame : Type := mkDataFrame {
  columns : list string;
  rows : list Sample
}.

(** [pd.DataFrame()]. *)
Definition empty_frame : DataFrame := mkDataFrame [] [].

Fixpoint assoc (k : string) (l : list (string * string)) : option string :=
  match l with
  | [] => None
  | (k', v) :: l' => if String.eqb k k' then Some v else assoc k l'
  end.

Definition label (r : Sample) (c : string) : option string :=
  assoc c (metric r).

Definition has_column (df : DataFrame) (c : string) : bool :=
  existsb (String.eqb c) (columns df).

Definition opt_eqb (a b : option string) : bool :=
  match a, b with
  | Some x, Some y => String.eqb x y
  | None, None => true
  | _, _ => false
  end.

(** [df[df[key] == value]]; NaN equals nothing. *)
Definition select_eq (df : DataFrame) (key : string) (value : option string)
  : result DataFrame :=
  if has_column df key
  then Ok (mkDataFrame (columns df)
             (filter (fun r => match label r key, value with
                               | Some x, Some y => String.eqb x y
                               | _, _ => false
                               end) (rows df)))
  else Err (KeyError key).

(** [df.drop(labels=names, axis="columns", errors="ignore")]. *)
Definition drop_columns (names : list string) (df : DataFrame) : DataFrame :=
  mkDataFrame
    (filter (fun c => negb (existsb (String.eqb c) names)) (columns df))
    (rows df).

Definition notna (r : Sample) (c : string) : bool :=
  String.eqb c "time" || String.eqb c "value" ||
  match label r c with Some _ => true | None => false end.

(** [df.dropna(how="all", axis="columns")]: a column stays when some row
    has a value in it; a frame without rows keeps no column. *)
Definition dropna_all_columns (df : DataFrame) : DataFrame :=
  mkDataFrame
    (filter (fun c => existsb (fun r => notna r c) (rows df)) (columns df))
    (rows df).

(** [Series.unique()]: the values in order of first appearance. *)
Fixpoint unique (l : list (option string)) : list (option string) :=
  match l with
  | [] => []
  | x :: l' => x :: filter (fun y => negb (opt_eqb x y)) (unique l')
  end.

(** [pd.tseries.frequencies.to_offset(resolution)]: pandas has no offset
    for a zero duration and raises [ValueError].  A resolution built by
    [init] is never negative. *)
Definition to_offset (resolution : timedelta) : result Z :=
  if resolution =? 0 then Err (ValueError "Invalid frequency")
  else Ok resolution.

(** [Series.dt.round(offset)]: pandas rounds the nanosecond count to the
    nearest multiple of the offset, a tie going to the even multiple; an
    odd offset has no tie. *)
Definition dt_round (offset t : Z) : Z :=
  if Z.odd offset
  then let v := t - offset / 2 in v + (- v) mod offset
  else
    let quotient := t / offset in
    let remainder := t mod offset in
    if (offset / 2 <? remainder) ||
       ((remainder =? offset / 2) && Z.odd quotient)
    then (quotient + 1) * offset
    else quotient * offset.

(** The tuple of label values a row is grouped by; [None] when one of them
    is NaN ([groupby] leaves such rows out). *)
Fixpoint group_key (labels : list string) (r : Sample) : option (list string) :=
  match labels with
  | [] => Some []
  | c :: cs =>
      match label r c, group_key cs r with
      | Some v, Some vs => Some (v :: vs)
      | _, _ => None
      end
  end.

(** Tuples of strings compare lexicographically. *)
Fixpoint key_leb (k1 k2 : list string) : bool :=
  match k1, k2 with
  | [], _ => true
  | _ :: _, [] => false
  | a :: k1', b :: k2' =>
      if String.eqb a b then key_leb k1' k2' else String.leb a b
  end.

Definition key_eqb (k1 k2 : list string) : bool :=
  if list_eq_dec string_dec k1 k2 then true else false.

Fixpoint distinct_keys (ks : list (list string)) : list (list string) :=
  match ks with
  | [] => []
  | k :: ks' => k :: filter (fun k' => negb (key_eqb k k')) (distinct_keys ks')
  end.

Fixpoint present_keys (labels : list string) (rs : list Sample)
  : list (list string) :=
  match rs with
  | [] => []
  | r :: rs' =>
      match group_key labels r with
      | Some k => k :: present_keys labels rs'
      | None => present_keys labels rs'
      end
  end.

(** [df.groupby(labels)["time"]], iterated: the groups come in the order of
    their keys, and each holds the [time] values of its rows in the order
    of the rows in [df]. *)
Definition groupby_time (labels : list string) (df : DataFrame)
  : result (list (list Z)) :=
  match labels with
  | [] => Err (ValueError "No group keys passed!")
  | _ =>
      let keys := stable_sort key_leb (distinct_keys (present_keys labels (rows df))) in
      Ok (map (fun k =>
                 map time
                   (filter (fun r => match group_key labels r with
                                     | Some k' => key_eqb k k'
                                     | None => false
                                     end) (rows df)))
              keys)
  end.

(** ** The view *)

Record View : Type := mkView {
  datasource : string;
  resolution : timedelta;
  ignore_labels : list string;
  (** [labels]: the dictionary in insertion order; [None] and the empty
      dictionary are both falsy and are the empty list here. *)
  labels : list (string * string);
  show_timeline : bool
}.

(** [init] (lines 101-108). *)
Definition init (datasource resolution : string) (ignore_labels : list string)
    (labels : list (string * string)) (show_timeline : bool) : result View :=
  r <- _parse_resolution resolution ;;
  Ok (mkView datasource r ignore_labels labels show_timeline).

(** What the view reads of [self.report]. *)
Record Report : Type := mkReport {
  start_date : Z;
  report_timedelta : Z
}.

Record AlertSummary : Type := mkAlertSummary {
  alertname : option string;
  total_time : timedelta;
  num_firings : nat;
  windows : list Window
}.

(** *** Timeline normalization ([_normalize_time_windows], lines 158-165)

    The percentages are binary64 floats, produced by a float division and
    by Python's [round(x, 2)].  An entry of the timeline is kept as the
    expression that computes it; [float_value], further down, is the
    binary64 float the expression evaluates to. *)
Inductive pynum : Type :=
| truediv (num den : Z)
| round_ (x : pynum) (ndigits : Z)
| max_ (i : Z) (x : pynum).

Definition normalize_window (report : Report) (w : Window) : pynum * pynum :=
  let td := report_timedelta report in
  (max_ 0 (round_ (truediv (100 * (fst w - start_date report)) td) 2),
   round_ (truediv (100 * (snd w - fst w)) td) 2).

(** The division raises [ZeroDivisionError] on a report of zero length, when
    there is a window to divide for. *)
Definition _normalize_time_windows (report : Report) (ws : list Window)
  : result (list (pynum * pynum)) :=
  mapM (fun w => if report_timedelta report =? 0
                 then Err ZeroDivisionError
                 else Ok (normalize_window report w)) ws.

(** *** [_template_vars] (lines 167-226) *)

(** Lines 172-180: the firing rows that carry the wanted labels, without the
    ignored columns. *)
Definition firing_table (v : View) (df : DataFrame) : result DataFrame :=
  df <- select_eq df "alertstate" (Some "firing"%string) ;;
  df <- fold_left (fun acc kv => df <- acc ;; select_eq df (fst kv) (Some (snd kv)))
          (labels v) (Ok df) ;;
  Ok (drop_columns (["__name__"; "alertstate"]%string ++ ignore_labels v) df).

(** Lines 184-196: the rows of one alert name, their times rounded, grouped
    by the label columns that are left; one list of times per group. *)
Definition alert_label_groups (v : View) (df : DataFrame)
    (name : option string) : result (list (list Z)) :=
  df_a <- select_eq df "alertname" name ;;
  let df_a := drop_columns ["alertname"%string] df_a in
  let df_a := dropna_all_columns df_a in
  offset <- to_offset (resolution v) ;;
  df_a <- (if has_column df_a "time"
           then Ok (mkDataFrame (columns df_a)
                      (map (fun r => mkSample (dt_round offset (time r)) (metric r))
                         (rows df_a)))
           else Err (KeyError "time")) ;;
  groupby_time (skipn 2 (columns df_a)) df_a.

(** The body of the loop over the alert names (lines 184-215).  The label
    dictionary of a firing is never read again and is left out. *)
Definition alert_summary (v : View) (df : DataFrame) (name : option string)
  : result AlertSummary :=
  groups <- alert_label_groups v df name ;;
  let firings := map (_compute_time_windows (resolution v)) groups in
  let all_firings := concat firings in
  let windows := _compress_time_windows all_firings in
  let total_time := _total_time windows in
  Ok (mkAlertSummary name total_time (length all_firings) windows).

(** [df["alertname"].unique()]. *)
Definition alert_names (df : DataFrame) : result (list (option string)) :=
  if has_column df "alertname"
  then Ok (unique (map (fun r => label r "alertname") (rows df)))
  else Err (KeyError "alertname").

(** The list [summary] when the loop ends (line 216). *)
Definition alert_summaries (v : View) (df : DataFrame)
  : result (list AlertSummary) :=
  names <- alert_names df ;;
  mapM (alert_summary v df) names.

Record TemplateVars : Type := mkTemplateVars {
  summary : list AlertSummary;
  timeline : list (pynum * pynum);
  tv_show_timeline : bool
}.

(** [df] is what [self.datasources.query] returned. *)
Definition _template_vars (v : View) (report : Report) (df : DataFrame)
  : result TemplateVars :=
  df <- firing_table v df ;;
  summary <- alert_summaries v df ;;
  let time_ordered := sorted total_time true summary in
  timeline <- _normalize_time_windows report (concat (map windows summary)) ;;
  Ok (mkTemplateVars time_ordered timeline (show_timeline v)).

(** The number of raw timestamps in the label groups of an alert name. *)
Definition raw_timestamps (groups : list (list Z)) : nat :=
  list_sum (map (@length Z) groups).

(** ** Sample query results *)

Definition SECOND : Z := NS_PER_SECOND.

(** The columns of an [ALERTS] query result: [time], [value], then the
    labels of the series. *)
Definition ALERTS_columns : list string :=
  ["time"; "value"; "__name__"; "alertname"; "alertstate"; "instance";
   "job"; "severity"]%string.

(** A sample of the series [ALERTS{alertname, alertstate, instance,
    job="node", severity}] at [t] seconds. *)
Definition sample (t : Z) (alertname alertstate instance severity : string)
  : Sample :=
  mkSample (t * SECOND)
    [("__name__", "ALERTS"); ("alertname", alertname);
     ("alertstate", alertstate); ("instance", instance); ("job", "node");
     ("severity", severity)]%string.

(** The view with [resolution="10s"] and the defaults for the rest. *)
Definition view_10s : View :=
  mkView "prometheus" (10 * SECOND) ["instance"; "job"]%string [] true.

(** A report over the seconds 0 to 1000. *)
Definition report_1000s : Report := mkReport 0 (1000 * SECOND).

(** One series that fires at two consecutive ticks. *)
Definition one_series : DataFrame :=
  mkDataFrame ALERTS_columns
    [sample 0 "disk-full" "firing" "a" "warn";
     sample 10 "disk-full" "firing" "a" "warn"].

(** Two series of one alert that differ in the ignored [instance] label
    only; the server lists the one that fired later first. *)
Definition two_series : DataFrame :=
  mkDataFrame ALERTS_columns
    [sample 100 "disk-full" "firing" "a" "warn";
     sample 0 "disk-full" "firing" "b" "warn"].

(** Two alerts: [cpu-hot] is met first and fires once, [disk-full] fires
    at two consecutive ticks later on. *)
Definition two_alerts : DataFrame :=
  mkDataFrame ALERTS_columns
    [sample 500 "cpu-hot" "firing" "a" "warn";
     sample 100 "disk-full" "firing" "a" "warn";
     sample 110 "disk-full" "firing" "a" "warn"].

(** Three summaries with the total times 15, 5 and 15. *)
Definition summary_A : AlertSummary := mkAlertSummary (Some "A"%string) 15 1 [(0, 15)].
Definition summary_B : AlertSummary := mkAlertSummary (Some "B"%string) 5 1 [(0, 5)].
Definition summary_C : AlertSummary := mkAlertSummary (Some "C"%string) 15 1 [(20, 35)].

(** What [_template_vars] returns on the sample query results. *)
Definition one_series_vars : TemplateVars :=
  mkTemplateVars
    [mkAlertSummary (Some "disk-full"%string) (20 * SECOND) 1
       [(0, 20 * SECOND)]]
    [normalize_window report_1000s (0, 20 * SECOND)]
    true.

Definition two_series_vars : TemplateVars :=
  mkTemplateVars
    [mkAlertSummary (Some "disk-full"%string) (- 90 * SECOND) 1
       [(100 * SECOND, 10 * SECOND)]]
    [normalize_window report_1000s (100 * SECOND, 10 * SECOND)]
    true.

Definition two_alerts_vars : TemplateVars :=
  mkTemplateVars
    [mkAlertSummary (Some "disk-full"%string) (20 * SECOND) 1
       [(100 * SECOND, 120 * SECOND)];
     mkAlertSummary (Some "cpu-hot"%string) (10 * SECOND) 1
       [(500 * SECOND, 510 * SECOND)]]
    [normalize_window report_1000s (500 * SECOND, 510 * SECOND);
     normalize_window report_1000s (100 * SECOND, 120 * SECOND)]
    true.

(** ** The datasource ([PrometheusDatasource], lines 13-68) *)


(** One element of [data.result] in the server's answer: the labels of the
    series (a dictionary, so the keys are distinct) and the instants of its
    values, already converted to nanoseconds as [pd.to_datetime(..., unit="s")]
    does; the float values are not kept. *)
Record Series : Type := mkSeries {
  series_metric : list (string * string);
  series_times : list Z
}.

(** What [query] reads of the decoded JSON answer: [json.get("status")] and
    [json.get("data", {}).get("result", [])]. *)
Record Response : Type := mkResponse {
  status : option string;
  result_list : list Series
}.

(** The columns of [a] followed by the columns [b] adds, each once. *)
Fixpoint union_columns (a b : list string) : list string :=
  match b with
  | [] => a
  | c :: b' =>
      if existsb (String.eqb c) a
      then union_columns a b'
      else union_columns (a ++ [c]) b'
  end.

(** The frame of one series (lines 62-65): the columns [time] and [value],
    then one column per label, the same on every row. *)
Definition series_frame (m : Series) : DataFrame :=
  mkDataFrame
    (union_columns ["time"; "value"]%string (map fst (series_metric m)))
    (map (fun t => mkSample t (series_metric m)) (series_times m)).

(** [df.append(mdf)]: the rows of [mdf] after those of [df]; the columns of
    [df], then the columns only [mdf] has. *)
Definition append (df mdf : DataFrame) : DataFrame :=
  mkDataFrame (union_columns (columns df) (columns mdf))
    (rows df ++ rows mdf).

(** [query] (lines 27-68), from the decoded answer on. *)
Definition query (json : Response) : result DataFrame :=
  if opt_eqb (status json) (Some "success"%string)
  then Ok (fold_left (fun df metric => append df (series_frame metric))
             (result_list json) empty_frame)
  else Err (ValueError "Got error response from Prometheus server").

(** The labels of a series leave the [time] and [value] columns alone. *)
Definition plain_labels (m : Series) : Prop :=
  ~ In "time"%string (map fst (series_metric m)) /\
  ~ In "value"%string (map fst (series_metric m)).

(** ** Shapes of windows *)

(** [w] lies inside [w']. *)
Definition inside (w w' : Window) : Prop :=
  fst w' <= fst w /\ snd w <= snd w'.

(** Each window ends strictly before the next one starts. *)
Fixpoint separated (ws : list Window) : Prop :=
  match ws with
  | [] => True
  | w :: ws' =>
      match ws' with
      | [] => True
      | w' :: _ => snd w < fst w'
      end /\ separated ws'
  end.

(** Each timestamp is at most [r] after the one before it. *)
Fixpoint close_spaced (r : Z) (ts : list Z) : Prop :=
  match ts with
  | [] => True
  | t :: ts' =>
      match ts' with
      | [] => True
      | t' :: _ => t' <= t + r
      end /\ close_spaced r ts'
  end.

(** Each timestamp is more than [r] after the one before it. *)
Fixpoint wide_spaced (r : Z) (ts : list Z) : Prop :=
  match ts with
  | [] => True
  | t :: ts' =>
      match ts' with
      | [] => True
      | t' :: _ => t + r < t'
      end /\ wide_spaced r ts'
  end.

(** The row has the value [value] under the label [key]. *)
Definition label_is (r : Sample) (key value : string) : bool :=
  match label r key with
  | Some x => String.eqb x value
  | None => false
  end.

(** The rows of a table whose [alertstate] is [firing]. *)
Definition firing_rows (df : DataFrame) : DataFrame :=
  mkDataFrame (columns df)
    (filter (fun r => label_is r "alertstate" "firing") (rows df)).

(** The row has every label of the filter, with the value asked for. *)
Definition row_matches (kvs : list (string * string)) (r : Sample) : bool :=
  forallb (fun kv => label_is r (fst kv) (snd kv)) kvs.

(** The answer of the server that [two_alerts] is the table of. *)
Definition two_alerts_answer : Response :=
  mkResponse (Some "success"%string)
    [mkSeries
       [("__name__", "ALERTS"); ("alertname", "cpu-hot");
        ("alertstate", "firing"); ("instance", "a"); ("job", "node");
        ("severity", "warn")]%string
       [500 * SECOND];
     mkSeries
       [("__name__", "ALERTS"); ("alertname", "disk-full");
        ("alertstate", "firing"); ("instance", "a"); ("job", "node");
        ("severity", "warn")]%string
       [100 * SECOND; 110 * SECOND]].

(** ** Python floats

    A Python [float] is an IEEE 754 binary64 number: [spec_float] with a
    mantissa of 53 bits and the exponent 1024 for the infinities.  Every
    operation below rounds to nearest, ties to even, as the interpreter
    does. *)

Definition float_prec : Z := 53.
Definition float_emax : Z := 1024.

(** [float(n)] for an integer [n]: the nearest float. *)
Definition float_of_int (n : Z) : spec_float :=
  binary_normalize float_prec float_emax n 0 false.

(** [x / y] on floats. *)
Definition float_truediv (x y : spec_float) : spec_float :=
  SFdiv float_prec float_emax x y.

(** The integer nearest to [num / den], for [den > 0]; a tie goes to the
    even one. *)
Definition round_half_even (num den : Z) : Z :=
  let q := num / den in
  let r := num mod den in
  match 2 * r ?= den with
  | Lt => q
  | Gt => q + 1
  | Eq => if Z.even q then q else q + 1
  end.

(** [round(x, ndigits)] on a float.  The interpreter writes the exact
    value of [x] in decimal with [ndigits] digits after the point, a tie
    going to the even digit, and reads the decimal back as the nearest
    float; NaN, the infinities and the zeros are returned as they are.
    [x] is [m * 2^e] up to its sign; [n] is that value times
    [10^ndigits], rounded to an integer. *)
Definition pyround (x : spec_float) (ndigits : Z) : spec_float :=
  match x with
  | S754_finite s m e =>
      let num := Zpos m * 2 ^ Z.max e 0 * 10 ^ Z.max ndigits 0 in
      let den := 2 ^ Z.max (- e) 0 * 10 ^ Z.max (- ndigits) 0 in
      match round_half_even num den * 10 ^ Z.max (- ndigits) 0 with
      | Zpos n =>
          SFdiv float_prec float_emax (S754_finite s n 0)
            (S754_finite false (Z.to_pos (10 ^ Z.max ndigits 0)) 0)
      | _ => S754_zero s
      end
  | _ => x
  end.






(** * Properties *)

(** ** Resolution parsing *)

Lemma is_unit_not_digit (u : ascii) : is_unit u = true -> is_digit u = false.
Proof.
  unfold is_unit. simpl. rewrite !orb_true_iff.
  intros H.
  repeat (destruct H as [H | H];
          [apply Ascii.eqb_eq in H; subst u; reflexivity |]).
  discriminate.
Qed.

Lemma span_digits_spec (s ds rest : string) :
  span_digits s = (ds, rest) ->
  s = (ds ++ rest)%string /\ all_digits ds = true.
Proof.
  revert ds rest. induction s as [|c s IH]; simpl; intros ds rest H.
  - inversion H; subst. split; reflexivity.
  - destruct (is_digit c) eqn:Hc.
    + destruct (span_digits s) as [ds' rest'] eqn:Hs.
      inversion H; subst. destruct (IH _ _ eq_refl) as [-> Hd].
      split; [reflexivity | simpl; rewrite Hc; exact Hd].
    + inversion H; subst. split; reflexivity.
Qed.

Lemma span_digits_app (ds : string) (u : ascii) (rest : string) :
  all_digits ds = true -> is_digit u = false ->
  span_digits (ds ++ String u rest) = (ds, String u rest).
Proof.
  intros Hd Hu. induction ds as [|c ds IH]; simpl in *.
  - rewrite Hu. reflexivity.
  - apply andb_true_iff in Hd as [Hc Hd]. rewrite Hc, (IH Hd). reflexivity.
Qed.

(** The longest run of digits finds every match of the regular expression:
    whatever way [s] splits into digits, a unit and a rest, [re_match]
    returns that split. *)
Lemma re_match_complete (s ds : string) (u : ascii) (rest : string) :
  resolution_prefix s ds u rest -> re_match s = Some (ds, u).
Proof.
  intros (-> & Hne & Hd & Hu). unfold re_match.
  rewrite (span_digits_app _ _ _ Hd (is_unit_not_digit _ Hu)).
  destruct ds; [congruence | rewrite Hu; reflexivity].
Qed.

Lemma re_match_sound (s ds : string) (u : ascii) :
  re_match s = Some (ds, u) -> exists rest, resolution_prefix s ds u rest.
Proof.
  unfold re_match. destruct (span_digits s) as [ds' rest] eqn:Hs.
  destruct (span_digits_spec _ _ _ Hs) as [-> Hd].
  destruct ds' as [|c ds']; [discriminate |].
  destruct rest as [|u' rest]; [discriminate |].
  destruct (is_unit u') eqn:Hu; [| discriminate].
  intros H; inversion H; subst. exists rest.
  repeat split; try assumption. discriminate.
Qed.

Lemma re_match_none (s : string) :
  re_match s = None <-> ~ has_resolution_prefix s.
Proof.
  split.
  - intros H (ds & u & rest & Hp). apply re_match_complete in Hp. congruence.
  - intros H. destruct (re_match s) as [[ds u]|] eqn:Hm; [| reflexivity].
    exfalso. apply H. destruct (re_match_sound _ _ _ Hm) as [rest Hp].
    exists ds, u, rest. exact Hp.
Qed.

Lemma digit_value_nonneg (c : ascii) : is_digit c = true -> 0 <= digit_value c.
Proof.
  unfold is_digit, digit_value. rewrite andb_true_iff.
  intros [H _]. apply Nat.leb_le in H. lia.
Qed.

Lemma int_acc_nonneg (ds : string) (acc : Z) :
  all_digits ds = true -> 0 <= acc -> 0 <= int_acc acc ds.
Proof.
  revert acc.
  induction ds as [|c ds IH]; cbn [int_acc all_digits]; intros acc Hd Hacc.
  - exact Hacc.
  - apply andb_true_iff in Hd as [Hc Hd]. apply IH; [exact Hd |].
    pose proof (digit_value_nonneg c Hc). lia.
Qed.

Lemma int_nonneg (ds : string) : all_digits ds = true -> 0 <= int ds.
Proof. intros H. apply int_acc_nonneg; [exact H | lia]. Qed.

Lemma timedelta_of_nonneg (kw : timedelta_kwarg) (n : Z) (d : timedelta) :
  0 <= n -> timedelta_of kw n = Ok d -> 0 <= d.
Proof.
  intros Hn. unfold timedelta_of, NS_PER_SECOND.
  destruct kw; simpl; try discriminate;
    match goal with |- context [if ?b then _ else _] => destruct b end;
    try discriminate; intros H; inversion H; lia.
Qed.

(** A parsed resolution is never negative. *)
Lemma _parse_resolution_nonneg (s : string) (r : timedelta) :
  _parse_resolution s = Ok r -> 0 <= r.
Proof.
  unfold _parse_resolution.
  destruct (re_match s) as [[ds u]|] eqn:Hm; [| discriminate].
  destruct (re_match_sound _ _ _ Hm) as (rest & _ & _ & Hd & _).
  destruct (mapping u) as [kw|]; [| discriminate].
  apply timedelta_of_nonneg, int_nonneg, Hd.
Qed.

Lemma timedelta_of_in_range (kw : timedelta_kwarg) (n : Z) :
  kw <> years -> 0 <= n -> n * seconds_per kw <= MAX_SECONDS ->
  timedelta_of kw n = Ok (n * seconds_per kw * NS_PER_SECOND).
Proof.
  intros Hkw Hn Hmax. unfold MAX_SECONDS in Hmax.
  assert (Hs : 0 <= n * seconds_per kw) by (destruct kw; simpl; lia).
  assert (Hq : n * seconds_per kw / 86400 <= 999999999).
  { apply Z.lt_succ_r. apply Z.div_lt_upper_bound; lia. }
  assert (Hq0 : 0 <= n * seconds_per kw / 86400) by (apply Z.div_pos; lia).
  unfold timedelta_of.
  destruct kw; try congruence;
    match goal with
    | |- context [?a >? ?b] =>
        destruct (Z.gtb_spec a b) as [Hgt|_]; [exfalso; lia | reflexivity]
    end.
Qed.

Lemma mapping_timedelta_unit (u : ascii) :
  is_timedelta_unit u = true ->
  exists kw, mapping u = Some kw /\ kw <> years.
Proof.
  unfold is_timedelta_unit. simpl. rewrite !orb_true_iff.
  intros H.
  repeat (destruct H as [H | H];
          [apply Ascii.eqb_eq in H; subst u; eexists; split;
           [reflexivity | discriminate] |]).
  discriminate.
Qed.

(** C2, as the code has it.  A string that begins with [<integer><unit>],
    the unit one of s, m, h, d, w, and whose duration fits a [timedelta],
    parses to the integer times the unit whatever follows the unit;
    parsing succeeds only on strings that begin with [<integer><unit>]; and
    every string that does not begin so is refused with the
    invalid-resolution error. *)
Theorem parse_resolution_prefix :
  (forall s ds u rest,
      resolution_prefix s ds u rest -> is_timedelta_unit u = true ->
      int ds * unit_seconds u <= MAX_SECONDS ->
      _parse_resolution s = Ok (int ds * unit_seconds u * NS_PER_SECOND)) /\
  (forall s d, _parse_resolution s = Ok d -> has_resolution_prefix s) /\
  (forall s, ~ has_resolution_prefix s ->
             _parse_resolution s = Err invalid_resolution).
Proof.
  split; [| split].
  - intros s ds u rest Hp Hu Hmax.
    unfold _parse_resolution. rewrite (re_match_complete _ _ _ _ Hp).
    destruct (mapping_timedelta_unit u Hu) as (kw & Hkw & Hy).
    unfold unit_seconds in *. rewrite Hkw in *.
    apply timedelta_of_in_range; [exact Hy | | exact Hmax].
    apply int_nonneg. apply Hp.
  - intros s d H. unfold _parse_resolution in H.
    destruct (re_match s) as [[ds u]|] eqn:Hm; [| discriminate].
    destruct (re_match_sound _ _ _ Hm) as [rest Hp].
    exists ds, u, rest. exact Hp.
  - intros s H. unfold _parse_resolution.
    apply re_match_none in H. rewrite H. reflexivity.
Qed.

Lemma parse_resolution_prefix_witness :
  _parse_resolution "15m" = Ok (15 * 60 * NS_PER_SECOND).
Proof.
  apply (proj1 parse_resolution_prefix "15m"%string "15"%string "m"%char
           EmptyString).
  - split; [reflexivity | split; [discriminate | split; reflexivity]].
  - reflexivity.
  - vm_compute. discriminate.
Defined.

(** C2 as stated fails: a string with characters after the unit does not
    match [<integer><unit>], and is parsed all the same. *)
Lemma parse_resolution_trailing_characters :
  ~ resolution_pattern "15mxyz" /\
  _parse_resolution "15mxyz" = Ok (15 * 60 * NS_PER_SECOND) /\
  _parse_resolution "15mxyz" <> Err invalid_resolution.
Proof.
  split; [| split; [reflexivity | discriminate]].
  intros (ds & u & Heq & _ & Hd & Hu).
  pose proof (span_digits_app ds u EmptyString Hd (is_unit_not_digit u Hu))
    as Hs.
  rewrite <- Heq in Hs. cbv in Hs. inversion Hs.
Qed.

(** ** The stable sort *)

Section StableSortFacts.
Context {A : Type}.
Variable leb : A -> A -> bool.

Lemma insert_sorted_perm (x : A) (l : list A) :
  Permutation (x :: l) (insert_sorted leb x l).
Proof.
  induction l as [|y l IH]; simpl.
  - apply Permutation_refl.
  - destruct (leb x y).
    + apply Permutation_refl.
    + eapply perm_trans; [apply perm_swap | apply perm_skip, IH].
Qed.

Lemma stable_sort_perm (l : list A) : Permutation l (stable_sort leb l).
Proof.
  induction l as [|x l IH]; simpl.
  - apply perm_nil.
  - eapply perm_trans; [apply perm_skip, IH | apply insert_sorted_perm].
Qed.

Hypothesis leb_total : forall x y, leb x y = false -> leb y x = true.
Hypothesis leb_trans :
  forall x y z, leb x y = true -> leb y z = true -> leb x z = true.

Lemma insert_sorted_sorted (x : A) (l : list A) :
  StronglySorted (fun a b => leb a b = true) l ->
  StronglySorted (fun a b => leb a b = true) (insert_sorted leb x l).
Proof.
  induction 1 as [|y l Hs IH Hy]; simpl.
  - constructor; constructor.
  - destruct (leb x y) eqn:Hxy.
    + constructor; [constructor; assumption |].
      constructor; [exact Hxy |].
      eapply Forall_impl; [| exact Hy].
      intros z Hz. exact (leb_trans _ _ _ Hxy Hz).
    + constructor; [exact IH |].
      eapply Permutation_Forall; [apply insert_sorted_perm |].
      constructor; [apply leb_total, Hxy | exact Hy].
Qed.

Lemma stable_sort_sorted (l : list A) :
  StronglySorted (fun a b => leb a b = true) (stable_sort leb l).
Proof.
  induction l as [|x l IH]; simpl.
  - constructor.
  - apply insert_sorted_sorted, IH.
Qed.

(** Stability: the elements of a class [p] whose members are never strictly
    after one another come out in the order they went in. *)
Variable p : A -> bool.
Hypothesis p_class : forall x y, p x = true -> p y = true -> leb x y = true.

Lemma insert_sorted_filter (x : A) (l : list A) :
  filter p (insert_sorted leb x l) = filter p (x :: l).
Proof.
  induction l as [|y l IH]; [reflexivity |].
  cbn [insert_sorted]. destruct (leb x y) eqn:Hxy; [reflexivity |].
  cbn [filter] in *. rewrite IH.
  destruct (p x) eqn:Hx, (p y) eqn:Hy; try reflexivity.
  rewrite (p_class _ _ Hx Hy) in Hxy. discriminate.
Qed.

Lemma stable_sort_filter (l : list A) :
  filter p (stable_sort leb l) = filter p l.
Proof.
  induction l as [|x l IH]; [reflexivity |].
  cbn [stable_sort fold_right]. rewrite insert_sorted_filter.
  cbn [filter]. fold (stable_sort leb l). rewrite IH. reflexivity.
Qed.

End StableSortFacts.

Lemma StronglySorted_weaken {A : Type} (R R' : A -> A -> Prop) (l : list A) :
  (forall x y, R x y -> R' x y) -> StronglySorted R l -> StronglySorted R' l.
Proof.
  intros HR. induction 1 as [|x l Hs IH Hx]; constructor.
  - exact IH.
  - eapply Forall_impl; [| exact Hx]. intros y. apply HR.
Qed.

Lemma sorted_perm {A : Type} (key : A -> Z) (reverse : bool) (l : list A) :
  Permutation l (sorted key reverse l).
Proof. apply stable_sort_perm. Qed.

Lemma sorted_ordered {A : Type} (key : A -> Z) (reverse : bool) (l : list A) :
  StronglySorted (key_order key reverse) (sorted key reverse l).
Proof.
  unfold sorted.
  eapply StronglySorted_weaken; [| apply stable_sort_sorted].
  - intros x y H. unfold key_order. destruct reverse; apply Z.leb_le, H.
  - intros x y H. destruct reverse; apply Z.leb_le; apply Z.leb_gt in H; lia.
  - intros x y z H1 H2. destruct reverse;
      apply Z.leb_le in H1; apply Z.leb_le in H2; apply Z.leb_le; lia.
Qed.

Lemma sorted_stable {A : Type} (key : A -> Z) (reverse : bool) (k : Z)
    (l : list A) :
  filter (fun x => key x =? k) (sorted key reverse l) =
  filter (fun x => key x =? k) l.
Proof.
  apply stable_sort_filter.
  intros x y Hx Hy. apply Z.eqb_eq in Hx, Hy.
  destruct reverse; apply Z.leb_le; lia.
Qed.

(** ** Window construction *)

Lemma last_window_snoc (pre : list Window) (w : Window) :
  last_window (pre ++ [w]) = w.
Proof. apply last_last. Qed.

Lemma set_last_end_snoc (pre : list Window) (w : Window) (e : Z) :
  set_last_end (pre ++ [w]) e = pre ++ [(fst w, e)].
Proof.
  unfold set_last_end. rewrite last_window_snoc, removelast_last.
  destruct (pre ++ [w]) eqn:H; [| reflexivity].
  exfalso. eapply app_cons_not_nil. symmetry. exact H.
Qed.

(** The loop, started on windows that end with the running window [cur],
    leaves the closed windows alone and continues as the specification's
    single pass does. *)
Lemma compute_loop (r : Z) (ts : list Z) :
  forall (pre : list Window) (cur : Window),
    fold_left (compute_step r) ts (pre ++ [cur]) =
    pre ++ spec_windows_from r cur ts.
Proof.
  induction ts as [|t ts IH]; intros pre cur; [reflexivity |].
  cbn [fold_left spec_windows_from]. unfold compute_step at 2.
  rewrite last_window_snoc, Z.gtb_ltb.
  destruct (snd cur <? t).
  - rewrite IH, <- app_assoc. reflexivity.
  - rewrite set_last_end_snoc. apply IH.
Qed.

Lemma compute_time_windows_refines (r : Z) (ts : list Z) :
  0 <= r -> _compute_time_windows r ts = spec_compute_time_windows r ts.
Proof.
  intros Hr. destruct ts as [|t1 rest]; [reflexivity |].
  unfold _compute_time_windows, spec_compute_time_windows.
  etransitivity; [exact (compute_loop r (t1 :: rest) [] (t1, t1 + r)) |].
  cbn [app spec_windows_from fst snd].
  destruct (Z.ltb_spec (t1 + r) t1) as [H | _]; [lia | reflexivity].
Qed.

(** C3.  With a resolution that is not negative, as every parsed resolution
    is, [_compute_time_windows] returns the windows of the specification's
    single pass, on every sequence of timestamps, ascending or not: nothing
    on the empty sequence, [[t, t+r]] on [[t]], and [[0,15],[20,30]] on
    [[0, 5, 20]] with [r = 10]. *)
Theorem compute_time_windows_spec :
  (forall r ts, 0 <= r ->
     _compute_time_windows r ts = spec_compute_time_windows r ts) /\
  (forall s r ts, _parse_resolution s = Ok r ->
     _compute_time_windows r ts = spec_compute_time_windows r ts) /\
  (forall r, _compute_time_windows r [] = []) /\
  (forall r t, 0 <= r -> _compute_time_windows r [t] = [(t, t + r)]) /\
  _compute_time_windows 10 [0; 5; 20] = [(0, 15); (20, 30)].
Proof.
  repeat split.
  - apply compute_time_windows_refines.
  - intros s r ts H. apply compute_time_windows_refines.
    exact (_parse_resolution_nonneg s r H).
  - intros r t Hr. rewrite compute_time_windows_refines by exact Hr.
    reflexivity.
Qed.

Lemma compute_time_windows_spec_witness :
  _compute_time_windows 10 [0; 5; 20] = spec_compute_time_windows 10 [0; 5; 20] /\
  _compute_time_windows (15 * 60 * NS_PER_SECOND) [0; 5; 20] =
  spec_compute_time_windows (15 * 60 * NS_PER_SECOND) [0; 5; 20] /\
  _compute_time_windows 10 [7] = [(7, 17)].
Proof.
  split; [| split].
  - apply (proj1 compute_time_windows_spec 10 [0; 5; 20]). lia.
  - apply (proj1 (proj2 compute_time_windows_spec) "15m"%string).
    reflexivity.
  - apply (proj1 (proj2 (proj2 (proj2 compute_time_windows_spec))) 10 7). lia.
Defined.

Lemma spec_windows_from_length (r : Z) (ts : list Z) :
  forall cur, (length (spec_windows_from r cur ts) <= S (length ts))%nat.
Proof.
  induction ts as [|t ts IH]; intros cur; cbn [spec_windows_from length].
  - lia.
  - destruct (snd cur <? t); cbn [length].
    + specialize (IH (t, t + r)). lia.
    + specialize (IH (fst cur, t + r)). lia.
Qed.

(** Every window is opened by a timestamp of its own. *)
Lemma compute_time_windows_length (r : Z) (ts : list Z) :
  0 <= r -> (length (_compute_time_windows r ts) <= length ts)%nat.
Proof.
  intros Hr. rewrite compute_time_windows_refines by exact Hr.
  destruct ts as [|t1 rest]; [apply Nat.le_refl |].
  apply spec_windows_from_length.
Qed.

(** ** Window compression *)

Lemma compress_loop (ws : list Window) :
  forall (pre : list Window) (cur : Window),
    fold_left compress_step ws (pre ++ [cur]) = pre ++ spec_merge_from cur ws.
Proof.
  induction ws as [|[s e] ws IH]; intros pre cur; [reflexivity |].
  cbn [fold_left spec_merge_from]. unfold compress_step at 2.
  rewrite last_window_snoc.
  destruct (s <? snd cur).
  - rewrite set_last_end_snoc. apply IH.
  - rewrite IH, <- app_assoc. reflexivity.
Qed.

Lemma compress_time_windows_refines (ws : list Window) :
  _compress_time_windows ws = spec_merge (sorted fst false ws).
Proof.
  unfold _compress_time_windows.
  destruct (sorted fst false ws) as [|w rest]; [reflexivity |].
  cbn [firstn skipn spec_merge]. apply (compress_loop rest [] w).
Qed.

(** C4.  [_compress_time_windows] sorts the windows by start, ascending and
    keeping the order of equal starts, and then merges a window into the
    running one exactly when its start is strictly less than the running
    end, the running end becoming the larger of the two ends; touching
    windows stay apart and overlapping windows merge. *)
Theorem compress_time_windows_spec :
  (forall ws,
     _compress_time_windows ws = spec_merge (sorted fst false ws) /\
     Permutation ws (sorted fst false ws) /\
     StronglySorted (fun a b => fst a <= fst b) (sorted fst false ws) /\
     (forall k, filter (fun w => fst w =? k) (sorted fst false ws) =
                filter (fun w => fst w =? k) ws)) /\
  _compress_time_windows [(0, 10); (10, 20)] = [(0, 10); (10, 20)] /\
  _compress_time_windows [(0, 10); (5, 20)] = [(0, 20)].
Proof.
  split; [| split; reflexivity].
  intros ws. split; [| split; [| split]].
  - apply compress_time_windows_refines.
  - apply sorted_perm.
  - apply (sorted_ordered fst false ws).
  - intros k. apply sorted_stable.
Qed.

(** ** Total firing time *)

Lemma total_time_acc (ws : list Window) (acc : Z) :
  fold_left (fun agg x => agg + (snd x - fst x)) ws acc =
  acc + sum_durations ws.
Proof.
  revert acc. induction ws as [|w ws IH]; intros acc; cbn [fold_left sum_durations].
  - lia.
  - rewrite IH. lia.
Qed.

Lemma total_time_sum (ws : list Window) : _total_time ws = sum_durations ws.
Proof. unfold _total_time. rewrite total_time_acc. lia. Qed.

(** *** What compression guarantees, and what it needs *)

Lemma spec_merge_from_head (ws : list Window) :
  forall cur, exists e rest, spec_merge_from cur ws = (fst cur, e) :: rest.
Proof.
  induction ws as [|[s e] ws IH]; intros cur; cbn [spec_merge_from].
  - exists (snd cur), []. destruct cur; reflexivity.
  - destruct (s <? snd cur).
    + apply (IH (fst cur, Z.max (snd cur) e)).
    + exists (snd cur), (spec_merge_from (s, e) ws). destruct cur; reflexivity.
Qed.

Lemma spec_merge_from_ordered (ws : list Window) :
  forall cur,
    StronglySorted (fun a b => fst a <= fst b) (cur :: ws) ->
    ordered_disjoint (spec_merge_from cur ws).
Proof.
  induction ws as [|[s e] ws IH]; intros cur Hs; cbn [spec_merge_from].
  - simpl. auto.
  - inversion Hs as [|? ? Hws Hcur]; subst.
    inversion Hws as [|? ? Hws' Hse]; subst.
    inversion Hcur as [|? ? Hcs Hcur']; subst.
    destruct (Z.ltb_spec s (snd cur)) as [Hlt | Hge].
    + apply IH. constructor; assumption.
    + destruct (spec_merge_from_head ws (s, e)) as (e' & rest & Heq).
      cbn [ordered_disjoint]. rewrite Heq at 1. split.
      * cbn [fst] in *. lia.
      * apply IH. exact Hws.
Qed.

(** The compressed windows are in ascending order of start and none starts
    before the one in front of it ends, whatever windows go in. *)
Lemma compress_ordered_disjoint (ws : list Window) :
  ordered_disjoint (_compress_time_windows ws).
Proof.
  rewrite compress_time_windows_refines.
  pose proof (sorted_ordered fst false ws) as Hs.
  destruct (sorted fst false ws) as [|w rest]; [exact I |].
  apply spec_merge_from_ordered. exact Hs.
Qed.

Lemma spec_merge_from_well_formed (ws : list Window) :
  forall cur,
    well_formed cur -> Forall well_formed ws ->
    Forall well_formed (spec_merge_from cur ws).
Proof.
  induction ws as [|[s e] ws IH]; intros cur Hc Hws; cbn [spec_merge_from].
  - constructor; [exact Hc | constructor].
  - inversion Hws; subst. destruct (s <? snd cur).
    + apply IH; [| assumption]. unfold well_formed in *. cbn [fst snd]. lia.
    + constructor; [exact Hc |]. apply IH; assumption.
Qed.

(** Compression keeps [start <= end] when the windows that go in have it. *)
Lemma compress_well_formed (ws : list Window) :
  Forall well_formed ws -> Forall well_formed (_compress_time_windows ws).
Proof.
  intros H. rewrite compress_time_windows_refines.
  assert (Hs : Forall well_formed (sorted fst false ws))
    by (eapply Permutation_Forall; [apply sorted_perm | exact H]).
  destruct (sorted fst false ws) as [|w rest]; [constructor |].
  inversion Hs; subst. apply spec_merge_from_well_formed; assumption.
Qed.

Lemma spec_windows_from_well_formed (r : Z) (ts : list Z) :
  0 <= r ->
  forall cur,
    well_formed cur -> StronglySorted Z.le ts ->
    Forall (fun t => fst cur <= t) ts ->
    Forall well_formed (spec_windows_from r cur ts).
Proof.
  intros Hr. induction ts as [|t ts IH]; intros cur Hc Hs Hts;
    cbn [spec_windows_from].
  - constructor; [exact Hc | constructor].
  - inversion Hs; subst. inversion Hts; subst.
    destruct (snd cur <? t).
    + constructor; [exact Hc |]. apply IH; try assumption.
      unfold well_formed. cbn [fst snd]. lia.
    + apply IH; try assumption.
      unfold well_formed in *. cbn [fst snd]. lia.
Qed.

(** Construction yields [start <= end] on timestamps in ascending order. *)
Lemma compute_time_windows_well_formed (r : Z) (ts : list Z) :
  0 <= r -> StronglySorted Z.le ts ->
  Forall well_formed (_compute_time_windows r ts).
Proof.
  intros Hr Hs. rewrite compute_time_windows_refines by exact Hr.
  destruct ts as [|t1 rest]; [constructor |].
  inversion Hs; subst.
  apply spec_windows_from_well_formed; try assumption.
  unfold well_formed. cbn [fst snd]. lia.
Qed.

(** ** The aggregator *)

Lemma mapM_Forall2 {A B : Type} (f : A -> result B) (l : list A) :
  forall l', mapM f l = Ok l' -> Forall2 (fun x y => f x = Ok y) l l'.
Proof.
  induction l as [|x l IH]; cbn [mapM]; intros l' H.
  - inversion H. constructor.
  - destruct (f x) as [y|] eqn:Hx; [| discriminate].
    cbn [bind] in H. destruct (mapM f l) as [ys|]; [| discriminate].
    inversion H; subst. constructor; [exact Hx | apply IH; reflexivity].
Qed.

Lemma Forall2_Forall_r {A B : Type} (R : A -> B -> Prop) (P : B -> Prop)
    (l : list A) (l' : list B) :
  (forall x y, R x y -> P y) -> Forall2 R l l' -> Forall P l'.
Proof. intros H. induction 1; constructor; eauto. Qed.

(** What one pass of the loop body builds. *)
Lemma alert_summary_inv (v : View) (df : DataFrame) (name : option string)
    (s : AlertSummary) :
  alert_summary v df name = Ok s ->
  exists groups,
    alert_label_groups v df name = Ok groups /\
    alertname s = name /\
    windows s =
      _compress_time_windows
        (concat (map (_compute_time_windows (resolution v)) groups)) /\
    total_time s = _total_time (windows s) /\
    num_firings s =
      length (concat (map (_compute_time_windows (resolution v)) groups)).
Proof.
  unfold alert_summary.
  destruct (alert_label_groups v df name) as [groups|]; [| discriminate].
  cbn [bind]. intros H. inversion H; subst. exists groups.
  repeat split; reflexivity.
Qed.

Lemma normalize_time_windows_map (report : Report) (ws : list Window) :
  forall tl, _normalize_time_windows report ws = Ok tl ->
             tl = map (normalize_window report) ws.
Proof.
  unfold _normalize_time_windows.
  induction ws as [|w ws IH]; cbn [mapM map]; intros tl H.
  - inversion H. reflexivity.
  - destruct (report_timedelta report =? 0); [discriminate |].
    cbn [bind] in H.
    destruct (mapM _ ws) as [tl'|]; [| discriminate].
    inversion H; subst. f_equal. apply IH. reflexivity.
Qed.

(** What [_template_vars] returns, read off its steps. *)
Lemma template_vars_inv (v : View) (report : Report) (df : DataFrame)
    (out : TemplateVars) :
  _template_vars v report df = Ok out ->
  exists df' names summ,
    firing_table v df = Ok df' /\
    alert_names df' = Ok names /\
    Forall2 (fun n s => alert_summary v df' n = Ok s) names summ /\
    summary out = sorted total_time true summ /\
    _normalize_time_windows report (concat (map windows summ)) =
      Ok (timeline out) /\
    timeline out = map (normalize_window report) (concat (map windows summ)) /\
    tv_show_timeline out = show_timeline v.
Proof.
  unfold _template_vars, alert_summaries.
  destruct (firing_table v df) as [df'|]; [| discriminate]. cbn [bind].
  destruct (alert_names df') as [names|] eqn:Ha; [| discriminate].
  cbn [bind].
  destruct (mapM (alert_summary v df') names) as [summ|] eqn:Hm;
    [| discriminate].
  cbn [bind].
  destruct (_normalize_time_windows report (concat (map windows summ)))
    as [tl|] eqn:Hn; [| discriminate].
  cbn [bind]. intros H. inversion H; subst. cbn.
  exists df', names, summ.
  split; [reflexivity |]. split; [exact Ha |].
  split; [apply mapM_Forall2, Hm |]. split; [reflexivity |].
  split; [exact Hn |].
  split; [apply normalize_time_windows_map, Hn | reflexivity].
Qed.

(** A property of every summary the loop builds holds of every summary that
    is displayed. *)
Lemma displayed_summaries (v : View) (report : Report) (df : DataFrame)
    (out : TemplateVars) (P : DataFrame -> AlertSummary -> Prop) :
  (forall df' name s, alert_summary v df' name = Ok s -> P df' s) ->
  _template_vars v report df = Ok out ->
  exists df', firing_table v df = Ok df' /\ Forall (P df') (summary out).
Proof.
  intros HP H.
  destruct (template_vars_inv _ _ _ _ H)
    as (df' & names & summ & Hf & _ & H2 & Hs & _).
  exists df'. split; [exact Hf |]. rewrite Hs.
  eapply Permutation_Forall; [apply sorted_perm |].
  eapply Forall2_Forall_r; [| exact H2].
  intros n s. apply HP.
Qed.

(** C1, as the code has it.  [num_firings] is the number of windows built
    for the label groups of the alert name, counted before compression;
    it is at most the number of raw timestamps of those groups. *)
Theorem num_firings_counts_windows (v : View) (report : Report)
    (df : DataFrame) (out : TemplateVars) :
  0 <= resolution v ->
  _template_vars v report df = Ok out ->
  exists df',
    firing_table v df = Ok df' /\
    Forall (fun s =>
              exists groups,
                alert_label_groups v df' (alertname s) = Ok groups /\
                num_firings s =
                  list_sum
                    (map (fun g => length (_compute_time_windows (resolution v) g))
                       groups) /\
                (num_firings s <= raw_timestamps groups)%nat)
      (summary out).
Proof.
  intros Hr. apply displayed_summaries.
  intros df' name s Hs.
  destruct (alert_summary_inv _ _ _ _ Hs) as (groups & Hg & Hn & _ & _ & Hc).
  exists groups. rewrite Hn. split; [exact Hg |].
  rewrite Hc, length_concat, map_map. split; [reflexivity |].
  unfold raw_timestamps, list_sum. clear - Hr.
  induction groups as [|g groups IH]; cbn [map fold_right].
  - apply Nat.le_refl.
  - pose proof (compute_time_windows_length (resolution v) g Hr). lia.
Qed.

Lemma one_series_result :
  _template_vars view_10s report_1000s one_series = Ok one_series_vars.
Proof. vm_compute. reflexivity. Qed.

Lemma two_series_result :
  _template_vars view_10s report_1000s two_series = Ok two_series_vars.
Proof. vm_compute. reflexivity. Qed.

Lemma two_alerts_result :
  _template_vars view_10s report_1000s two_alerts = Ok two_alerts_vars.
Proof. vm_compute. reflexivity. Qed.

(** The sample view is the one [init] builds from [resolution="10s"]. *)
Lemma view_10s_init :
  init "prometheus" "10s" ["instance"; "job"]%string [] true = Ok view_10s.
Proof. vm_compute. reflexivity. Qed.

Lemma num_firings_counts_windows_witness :
  exists df',
    firing_table view_10s one_series = Ok df' /\
    Forall (fun s =>
              exists groups,
                alert_label_groups view_10s df' (alertname s) = Ok groups /\
                num_firings s =
                  list_sum
                    (map (fun g =>
                            length (_compute_time_windows (resolution view_10s) g))
                       groups) /\
                (num_firings s <= raw_timestamps groups)%nat)
      (summary one_series_vars).
Proof.
  apply (num_firings_counts_windows view_10s report_1000s one_series
           one_series_vars).
  - vm_compute. discriminate.
  - vm_compute. reflexivity.
Defined.

(** C1 as stated fails: one series that fires at two consecutive ticks has
    two raw timestamps in its only label group, and one firing. *)
Lemma num_firings_is_not_raw_count :
  _template_vars view_10s report_1000s one_series = Ok one_series_vars /\
  map num_firings (summary one_series_vars) = [1%nat] /\
  (df <- firing_table view_10s one_series ;;
   alert_label_groups view_10s df (Some "disk-full"%string)) =
  Ok [[0; 10 * SECOND]] /\
  raw_timestamps [[0; 10 * SECOND]] = 2%nat.
Proof. repeat split; vm_compute; reflexivity. Qed.

(** C6.  The displayed summaries are the summaries the loop built, in
    descending order of [total_time], and those with the same [total_time]
    are in the order the loop built them; total times 15, 5, 15 of A, B, C
    give A, C, B. *)
Theorem summary_ranking :
  (forall v report df out,
      _template_vars v report df = Ok out ->
      exists df' summ,
        firing_table v df = Ok df' /\
        alert_summaries v df' = Ok summ /\
        Permutation summ (summary out) /\
        StronglySorted (fun a b => total_time b <= total_time a) (summary out) /\
        forall t,
          filter (fun s => total_time s =? t) (summary out) =
          filter (fun s => total_time s =? t) summ) /\
  map total_time [summary_A; summary_B; summary_C] = [15; 5; 15] /\
  sorted total_time true [summary_A; summary_B; summary_C] =
  [summary_A; summary_C; summary_B].
Proof.
  split; [| split; reflexivity].
  intros v report df out H. unfold _template_vars in H.
  destruct (firing_table v df) as [df'|]; [| discriminate]. cbn [bind] in H.
  destruct (alert_summaries v df') as [summ|] eqn:Hs; [| discriminate].
  cbn [bind] in H.
  destruct (_normalize_time_windows report (concat (map windows summ)));
    [| discriminate].
  cbn [bind] in H. inversion H; subst. cbn [summary].
  exists df', summ. split; [reflexivity |]. split; [exact Hs |].
  split; [apply sorted_perm |].
  split; [apply (sorted_ordered total_time true summ) |].
  intros t. apply sorted_stable.
Qed.

Lemma summary_ranking_witness :
  exists df' summ,
    firing_table view_10s two_alerts = Ok df' /\
    alert_summaries view_10s df' = Ok summ /\
    Permutation summ (summary two_alerts_vars) /\
    StronglySorted (fun a b => total_time b <= total_time a)
      (summary two_alerts_vars) /\
    forall t,
      filter (fun s => total_time s =? t) (summary two_alerts_vars) =
      filter (fun s => total_time s =? t) summ.
Proof.
  apply (proj1 summary_ranking view_10s report_1000s two_alerts
           two_alerts_vars).
  vm_compute. reflexivity.
Defined.

(** C8.  [total_time] of a summary is the sum of [(end - start)] over its
    windows, which are the compressed windows of its alert name; windows
    [[0,10],[20,25]] give 15 and no windows give the zero duration. *)
Theorem total_time_is_sum :
  (forall v report df out,
      _template_vars v report df = Ok out ->
      exists df',
        firing_table v df = Ok df' /\
        Forall (fun s =>
                  total_time s = sum_durations (windows s) /\
                  exists groups,
                    alert_label_groups v df' (alertname s) = Ok groups /\
                    windows s =
                      _compress_time_windows
                        (concat (map (_compute_time_windows (resolution v))
                                   groups)))
          (summary out)) /\
  (forall ws, _total_time ws = sum_durations ws) /\
  _total_time [(0, 10); (20, 25)] = 15 /\
  _total_time [] = 0.
Proof.
  split; [| split; [apply total_time_sum | split; reflexivity]].
  intros v report df out. apply displayed_summaries.
  intros df' name s Hs.
  destruct (alert_summary_inv _ _ _ _ Hs) as (groups & Hg & Hn & Hw & Ht & _).
  split.
  - rewrite Ht. apply total_time_sum.
  - exists groups. rewrite Hn. split; assumption.
Qed.

Lemma total_time_is_sum_witness :
  exists df',
    firing_table view_10s two_alerts = Ok df' /\
    Forall (fun s =>
              total_time s = sum_durations (windows s) /\
              exists groups,
                alert_label_groups view_10s df' (alertname s) = Ok groups /\
                windows s =
                  _compress_time_windows
                    (concat (map (_compute_time_windows (resolution view_10s))
                               groups)))
      (summary two_alerts_vars).
Proof.
  apply (proj1 total_time_is_sum view_10s report_1000s two_alerts
           two_alerts_vars).
  vm_compute. reflexivity.
Defined.

(** ** The timeline *)

Lemma unique_In (l : list (option string)) (x : option string) :
  In x (unique l) <-> In x l.
Proof.
  induction l as [|y l IH]; cbn [unique In]; [tauto |].
  rewrite filter_In, IH. split.
  - intros [H | [H _]]; auto.
  - intros [H | H]; [auto |].
    destruct (opt_eqb y x) eqn:E; [| right; split; [exact H | reflexivity]].
    left. destruct y as [a|], x as [b|]; cbn in E; try discriminate;
      [apply String.eqb_eq in E; congruence | reflexivity].
Qed.

(** Each alert name is met once. *)
Lemma unique_NoDup (l : list (option string)) : NoDup (unique l).
Proof.
  induction l as [|y l IH]; cbn [unique]; constructor.
  - rewrite filter_In. intros [_ H].
    destruct y as [a|]; cbn in H; [rewrite String.eqb_refl in H |];
      discriminate.
  - apply NoDup_filter, IH.
Qed.

Lemma summaries_names (v : View) (df : DataFrame)
    (names : list (option string)) (summ : list AlertSummary) :
  Forall2 (fun n s => alert_summary v df n = Ok s) names summ ->
  map alertname summ = names /\
  Forall (fun s => alert_summary v df (alertname s) = Ok s) summ.
Proof.
  induction 1 as [|n s names summ Hs _ [IHn IHs]]; cbn [map].
  - split; [reflexivity | constructor].
  - destruct (alert_summary_inv _ _ _ _ Hs) as (_ & _ & Hn & _).
    rewrite Hn, IHn. split; [reflexivity |].
    constructor; [rewrite Hn; exact Hs | exact IHs].
Qed.

(** C10.  The timeline is the normalization of the compressed windows of
    the alert names, the names taken in the order they are first met in the
    filtered table and the windows of one name in ascending order of start;
    the ranked order of the displayed summaries plays no part in it. *)
Theorem timeline_in_encounter_order :
  (forall v report df out,
      _template_vars v report df = Ok out ->
      exists df' summ,
        firing_table v df = Ok df' /\
        map alertname summ =
          unique (map (fun r => label r "alertname") (rows df')) /\
        Forall (fun s => alert_summary v df' (alertname s) = Ok s) summ /\
        Forall (fun s => ordered_disjoint (windows s)) summ /\
        _normalize_time_windows report (concat (map windows summ)) =
          Ok (timeline out) /\
        timeline out =
          map (normalize_window report) (concat (map windows summ)) /\
        summary out = sorted total_time true summ) /\
  (_template_vars view_10s report_1000s two_alerts = Ok two_alerts_vars /\
   (df <- firing_table view_10s two_alerts ;; alert_names df) =
     Ok [Some "cpu-hot"; Some "disk-full"]%string /\
   map alertname (summary two_alerts_vars) =
     [Some "disk-full"; Some "cpu-hot"]%string /\
   timeline two_alerts_vars =
     map (normalize_window report_1000s)
       [(500 * SECOND, 510 * SECOND); (100 * SECOND, 120 * SECOND)]).
Proof.
  split; [| repeat split; vm_compute; reflexivity].
  intros v report df out H.
  destruct (template_vars_inv _ _ _ _ H)
    as (df' & names & summ & Hf & Ha & H2 & Hs & Hn & Ht & _).
  destruct (summaries_names _ _ _ _ H2) as [Hnames Hall].
  exists df', summ. split; [exact Hf |]. split.
  { unfold alert_names in Ha.
    destruct (has_column df' "alertname"); [| discriminate].
    inversion Ha as [Hu]. rewrite Hu. exact Hnames. }
  split; [exact Hall |]. split.
  { eapply Forall_impl; [| exact Hall]. intros s Hsum.
    destruct (alert_summary_inv _ _ _ _ Hsum) as (groups & _ & _ & Hw & _).
    rewrite Hw. apply compress_ordered_disjoint. }
  split; [exact Hn |]. split; [exact Ht | exact Hs].
Qed.

Lemma timeline_in_encounter_order_witness :
  exists df' summ,
    firing_table view_10s two_alerts = Ok df' /\
    map alertname summ =
      unique (map (fun r => label r "alertname") (rows df')) /\
    Forall (fun s => alert_summary view_10s df' (alertname s) = Ok s) summ /\
    Forall (fun s => ordered_disjoint (windows s)) summ /\
    _normalize_time_windows report_1000s (concat (map windows summ)) =
      Ok (timeline two_alerts_vars) /\
    timeline two_alerts_vars =
      map (normalize_window report_1000s) (concat (map windows summ)) /\
    summary two_alerts_vars = sorted total_time true summ.
Proof.
  apply (proj1 timeline_in_encounter_order view_10s report_1000s two_alerts
           two_alerts_vars).
  vm_compute. reflexivity.
Defined.

(** ** The windows of a summary *)

(** The windows of every summary are in ascending order of start and do not
    overlap, on every table. *)
Lemma summary_windows_ordered (v : View) (df : DataFrame)
    (name : option string) (s : AlertSummary) :
  alert_summary v df name = Ok s -> ordered_disjoint (windows s).
Proof.
  intros H. destruct (alert_summary_inv _ _ _ _ H) as (groups & _ & _ & Hw & _).
  rewrite Hw. apply compress_ordered_disjoint.
Qed.

(** They have [start <= end] when the times of each label group come in
    ascending order, which is the order the loop of
    [_compute_time_windows] is written for. *)
Lemma summary_windows_well_formed (v : View) (df : DataFrame)
    (name : option string) (s : AlertSummary) (groups : list (list Z)) :
  0 <= resolution v ->
  alert_summary v df name = Ok s ->
  alert_label_groups v df name = Ok groups ->
  Forall (StronglySorted Z.le) groups ->
  Forall well_formed (windows s).
Proof.
  intros Hr H Hg Hs.
  destruct (alert_summary_inv _ _ _ _ H) as (groups' & Hg' & _ & Hw & _).
  rewrite Hg in Hg'. inversion Hg'; subst groups'.
  rewrite Hw. apply compress_well_formed.
  clear - Hr Hs. induction Hs as [|g groups Hgs _ IH]; cbn [map concat].
  - constructor.
  - apply Forall_app. split; [| exact IH].
    apply compute_time_windows_well_formed; assumption.
Qed.

(** C7 on two series of one label group that the server lists out of
    chronological order: the group's times are not ascending, the later
    timestamp pulls the end of the running window back, and the summary
    holds a window that ends before it starts. *)
Theorem unsorted_group_window_ends_before_start :
  _template_vars view_10s report_1000s two_series = Ok two_series_vars /\
  (df <- firing_table view_10s two_series ;;
   alert_label_groups view_10s df (Some "disk-full"%string)) =
    Ok [[100 * SECOND; 0]] /\
  map windows (summary two_series_vars) = [[(100 * SECOND, 10 * SECOND)]] /\
  ~ Forall (fun s => Forall well_formed (windows s)) (summary two_series_vars).
Proof.
  split; [vm_compute; reflexivity |].
  split; [vm_compute; reflexivity |].
  split; [vm_compute; reflexivity |].
  intros H. inversion H as [|s l Hs _]; subst.
  inversion Hs as [|w l' Hw _]; subst.
  unfold well_formed in Hw. vm_compute in Hw. apply Hw. reflexivity.
Qed.

(** ** Tables without firing samples *)

Lemma filter_none {A : Type} (f : A -> bool) (l : list A) :
  Forall (fun x => f x = false) l -> filter f l = [].
Proof.
  induction 1 as [|x l Hx _ IH]; cbn [filter]; [reflexivity |].
  rewrite Hx. exact IH.
Qed.

Lemma label_filters_no_rows (cols : list string)
    (kvs : list (string * string)) :
  Forall (fun kv => existsb (String.eqb (fst kv)) cols = true) kvs ->
  fold_left (fun acc kv => df <- acc ;; select_eq df (fst kv) (Some (snd kv)))
    kvs (Ok (mkDataFrame cols [])) = Ok (mkDataFrame cols []).
Proof.
  induction 1 as [|kv kvs Hkv _ IH]; cbn [fold_left]; [reflexivity |].
  cbn [bind]. unfold select_eq, has_column. cbn [columns rows filter].
  rewrite Hkv. exact IH.
Qed.

(** A table that has the columns the view reads and no firing row gives
    the empty summary and the empty timeline. *)
Lemma no_firing_rows_empty_result (v : View) (report : Report)
    (df : DataFrame) :
  has_column df "alertstate" = true ->
  Forall (fun kv => has_column df (fst kv) = true) (labels v) ->
  has_column
    (drop_columns (["__name__"; "alertstate"]%string ++ ignore_labels v) df)
    "alertname" = true ->
  Forall (fun r => label r "alertstate" <> Some "firing"%string) (rows df) ->
  _template_vars v report df = Ok (mkTemplateVars [] [] (show_timeline v)).
Proof.
  intros Hstate Hlabels Hname Hrows.
  unfold _template_vars, firing_table, select_eq at 1. rewrite Hstate.
  rewrite filter_none.
  2:{ eapply Forall_impl; [| exact Hrows]. intros r Hr. cbv beta in *.
      destruct (label r "alertstate") as [x|]; [| reflexivity].
      destruct (String.eqb_spec x "firing"); [congruence | reflexivity]. }
  cbn [bind]. rewrite (label_filters_no_rows (columns df) (labels v) Hlabels).
  cbn [bind]. unfold alert_summaries, alert_names.
  unfold has_column, drop_columns in *. cbn [columns rows] in *.
  rewrite Hname. reflexivity.
Qed.

(** C9 on the table [PrometheusDatasource.query] returns when the server
    lists no [ALERTS] series: the frame has no [alertstate] column to
    filter on, and the view fails with [KeyError] where the empty summary
    is due. *)
Theorem empty_query_result_raises (v : View) (report : Report) :
  _template_vars v report empty_frame = Err (KeyError "alertstate").
Proof. reflexivity. Qed.

(** * Further properties of the code *)

(** ** Resolution parsing, further *)

(** X1.  What follows the unit never matters: a string that begins with
    digits and a unit parses, or fails, exactly as the digits and the unit
    alone do. *)
Theorem parse_resolution_ignores_rest (ds : string) (u : ascii) (rest : string) :
  ds <> EmptyString -> all_digits ds = true -> is_unit u = true ->
  _parse_resolution (ds ++ String u rest) =
  _parse_resolution (ds ++ String u EmptyString).
Proof.
  intros Hne Hd Hu. unfold _parse_resolution.
  rewrite (re_match_complete (ds ++ String u rest) ds u rest)
    by (repeat split; assumption).
  rewrite (re_match_complete (ds ++ String u EmptyString) ds u EmptyString)
    by (repeat split; assumption).
  reflexivity.
Qed.

Lemma parse_resolution_ignores_rest_witness :
  _parse_resolution "90s per tick" = _parse_resolution "90s".
Proof.
  apply (parse_resolution_ignores_rest "90" "s" " per tick").
  - discriminate.
  - reflexivity.
  - reflexivity.
Defined.

(** X2.  The unit [y] is in the pattern and in the mapping, and
    [datetime.timedelta] has no keyword for it: every string that begins
    with digits and [y] raises [TypeError], and none yields a duration. *)
Theorem parse_resolution_years_raise (ds rest : string) :
  ds <> EmptyString -> all_digits ds = true ->
  exists msg, _parse_resolution (ds ++ String "y" rest) = Err (TypeError msg).
Proof.
  intros Hne Hd. unfold _parse_resolution.
  rewrite (re_match_complete (ds ++ String "y" rest) ds "y" rest)
    by (repeat split; assumption).
  eexists. reflexivity.
Qed.

Lemma parse_resolution_years_raise_witness :
  exists msg, _parse_resolution "1y" = Err (TypeError msg).
Proof.
  apply (parse_resolution_years_raise "1" EmptyString).
  - discriminate.
  - reflexivity.
Defined.

(** X3.  A number of s, m, h, d or w beyond what a [timedelta] holds
    (999999999 days and 86399 seconds) raises [OverflowError]. *)
Theorem parse_resolution_overflow (ds : string) (u : ascii) (rest : string) :
  ds <> EmptyString -> all_digits ds = true -> is_timedelta_unit u = true ->
  MAX_SECONDS < int ds * unit_seconds u ->
  _parse_resolution (ds ++ String u rest) = Err OverflowError.
Proof.
  intros Hne Hd Hu Hmax.
  destruct (mapping_timedelta_unit u Hu) as (kw & Hkw & Hy).
  assert (Hunit : is_unit u = true).
  { unfold is_timedelta_unit in Hu. unfold is_unit. cbn [existsb] in *.
    rewrite !orb_true_iff in *. tauto. }
  unfold _parse_resolution.
  rewrite (re_match_complete (ds ++ String u rest) ds u rest)
    by (repeat split; assumption).
  unfold unit_seconds in Hmax. rewrite Hkw in *. unfold MAX_SECONDS in Hmax.
  assert (Hq : 999999999 < int ds * seconds_per kw / 86400).
  { apply Z.lt_le_trans with (86400000000000 / 86400).
    - reflexivity.
    - apply Z.div_le_mono; lia. }
  unfold timedelta_of.
  destruct kw; try congruence;
    match goal with
    | |- context [?a >? ?b] =>
        destruct (Z.gtb_spec a b) as [_|Hle]; [reflexivity | exfalso; lia]
    end.
Qed.

Lemma parse_resolution_overflow_witness :
  _parse_resolution "1000000000d" = Err OverflowError.
Proof.
  apply (parse_resolution_overflow "1000000000" "d" EmptyString).
  - discriminate.
  - reflexivity.
  - reflexivity.
  - vm_compute. reflexivity.
Defined.

Lemma timedelta_of_whole_seconds (kw : timedelta_kwarg) (n : Z) (d : timedelta) :
  0 <= n -> timedelta_of kw n = Ok d ->
  exists secs, 0 <= secs <= MAX_SECONDS /\ d = secs * NS_PER_SECOND.
Proof.
  intros Hn H. unfold timedelta_of in H.
  destruct kw; try discriminate;
    match type of H with
    | context [?a >? ?b] => destruct (Z.gtb_spec a b) as [|Hle]
    end; try discriminate; inversion H; subst;
    eexists; (split; [| reflexivity]); cbn [seconds_per] in *;
    unfold MAX_SECONDS;
    (split; [lia |]);
    match type of Hle with
    | Z.abs (?x / 86400) <= _ =>
        assert (Hx : 0 <= x) by lia;
        pose proof (Z.div_pos x 86400 Hx ltac:(lia));
        pose proof (Z.mul_succ_div_gt x 86400 ltac:(lia)); lia
    end.
Qed.

(** X4.  A parsed resolution is a whole number of seconds, not negative
    and at most 999999999 days and 86399 seconds; the view [init] builds
    carries it. *)
Theorem parsed_resolution_whole_seconds :
  (forall s r, _parse_resolution s = Ok r ->
     exists secs, 0 <= secs <= MAX_SECONDS /\ r = secs * NS_PER_SECOND) /\
  (forall ds res ign lbl show v,
     init ds res ign lbl show = Ok v ->
     _parse_resolution res = Ok (resolution v) /\ 0 <= resolution v).
Proof.
  split.
  - intros s r. unfold _parse_resolution.
    destruct (re_match s) as [[ds u]|] eqn:Hm; [| discriminate].
    destruct (re_match_sound _ _ _ Hm) as (rest & _ & _ & Hd & _).
    destruct (mapping u) as [kw|]; [| discriminate].
    apply timedelta_of_whole_seconds, int_nonneg, Hd.
  - intros ds res ign lbl show v. unfold init.
    destruct (_parse_resolution res) as [r|] eqn:Hr; [| discriminate].
    cbn [bind]. intros H. inversion H; subst. cbn [resolution].
    split; [reflexivity | exact (_parse_resolution_nonneg res r Hr)].
Qed.

Lemma parsed_resolution_whole_seconds_witness :
  (exists secs, 0 <= secs <= MAX_SECONDS /\
                15 * 60 * NS_PER_SECOND = secs * NS_PER_SECOND) /\
  _parse_resolution "10s" = Ok (resolution view_10s) /\
  0 <= resolution view_10s.
Proof.
  split.
  - apply (proj1 parsed_resolution_whole_seconds "15m"%string). reflexivity.
  - apply (proj2 parsed_resolution_whole_seconds "prometheus"%string
             "10s"%string ["instance"; "job"]%string [] true).
    vm_compute. reflexivity.
Defined.

(** ** Window construction, further *)

(** The loop as a single pass over all the timestamps, whatever the sign of
    the resolution. *)
Lemma compute_time_windows_pass (r t1 : Z) (rest : list Z) :
  _compute_time_windows r (t1 :: rest) =
  spec_windows_from r (t1, t1 + r) (t1 :: rest).
Proof. exact (compute_loop r (t1 :: rest) [] (t1, t1 + r)). Qed.

Lemma spec_windows_from_head (r : Z) (ts : list Z) :
  forall cur, exists e rest,
    spec_windows_from r cur ts = (fst cur, e) :: rest.
Proof.
  induction ts as [|t ts IH]; intros cur; cbn [spec_windows_from].
  - exists (snd cur), []. destruct cur; reflexivity.
  - destruct (snd cur <? t).
    + exists (snd cur), (spec_windows_from r (t, t + r) ts).
      destruct cur; reflexivity.
    + apply (IH (fst cur, t + r)).
Qed.

Lemma last_window_cons (w : Window) (l : list Window) :
  l <> [] -> last_window (w :: l) = last_window l.
Proof. destruct l; [congruence | reflexivity]. Qed.

Lemma spec_windows_from_last (r : Z) (ts : list Z) :
  forall cur,
    snd (last_window (spec_windows_from r cur ts)) =
    match ts with
    | [] => snd cur
    | _ => last ts 0 + r
    end.
Proof.
  induction ts as [|t ts IH]; intros cur; [reflexivity |].
  cbn [spec_windows_from].
  assert (Hlast : last (t :: ts) 0 + r =
                  match ts with [] => t + r | _ => last ts 0 + r end)
    by (destruct ts; reflexivity).
  rewrite Hlast. destruct (snd cur <? t).
  - destruct (spec_windows_from_head r ts (t, t + r)) as (e & rest & Heq).
    rewrite last_window_cons by (rewrite Heq; discriminate).
    apply (IH (t, t + r)).
  - apply (IH (fst cur, t + r)).
Qed.

Lemma spec_windows_from_separated (r : Z) (ts : list Z) :
  forall cur, separated (spec_windows_from r cur ts).
Proof.
  induction ts as [|t ts IH]; intros cur; cbn [spec_windows_from].
  - simpl. auto.
  - destruct (Z.ltb_spec (snd cur) t) as [Hlt | _].
    + destruct (spec_windows_from_head r ts (t, t + r)) as (e & rest & Heq).
      cbn [separated]. rewrite Heq at 1. split; [exact Hlt | apply IH].
    + apply IH.
Qed.

(** X5.  On every sequence of timestamps, in any order, and for every
    resolution: the first window starts at the first timestamp, the last
    window ends at the last timestamp plus the resolution, and each window
    ends strictly before the next one starts. *)
Theorem compute_time_windows_shape :
  (forall r t1 rest, exists e ws,
      _compute_time_windows r (t1 :: rest) = (t1, e) :: ws) /\
  (forall r t1 rest,
      snd (last_window (_compute_time_windows r (t1 :: rest))) =
      last (t1 :: rest) 0 + r) /\
  (forall r ts, separated (_compute_time_windows r ts)).
Proof.
  split; [| split].
  - intros r t1 rest. rewrite compute_time_windows_pass.
    apply (spec_windows_from_head r (t1 :: rest) (t1, t1 + r)).
  - intros r t1 rest. rewrite compute_time_windows_pass.
    apply (spec_windows_from_last r (t1 :: rest) (t1, t1 + r)).
  - intros r [|t1 rest]; [exact I |].
    rewrite compute_time_windows_pass. apply spec_windows_from_separated.
Qed.

Lemma spec_windows_from_covers (r : Z) (ts : list Z) :
  forall cur,
    fst cur + r <= snd cur ->
    StronglySorted Z.le ts ->
    Forall (fun t => snd cur <= t + r) ts ->
    Forall (fun w => fst w + r <= snd w) (spec_windows_from r cur ts) /\
    (exists e rest,
        spec_windows_from r cur ts = (fst cur, e) :: rest /\ snd cur <= e) /\
    (forall t, In t ts ->
               exists w, In w (spec_windows_from r cur ts) /\
                         inside (t, t + r) w).
Proof.
  induction ts as [|t ts IH]; intros cur Hc Hs Hts; cbn [spec_windows_from].
  - split; [constructor; [exact Hc | constructor] |].
    split; [| intros t []].
    exists (snd cur), []. split; [destruct cur; reflexivity | lia].
  - inversion Hs as [|? ? Hs' Ht]; subst.
    inversion Hts as [|? ? Hct Hts']; subst.
    assert (Hnext : Forall (fun t' => t + r <= t' + r) ts)
      by (eapply Forall_impl; [| exact Ht]; cbv beta; intros; lia).
    destruct (snd cur <? t).
    + destruct (IH (t, t + r)) as (Hlen & (e & rest & Heq & He) & Hcov);
        [cbn [fst snd]; lia | exact Hs' | exact Hnext |].
      split; [constructor; assumption |]. split.
      * exists (snd cur), (spec_windows_from r (t, t + r) ts).
        split; [destruct cur; reflexivity | lia].
      * intros t' [<- | Hin].
        -- exists (t, e). split; [right; rewrite Heq; left; reflexivity |].
           unfold inside. cbn [fst snd] in *. lia.
        -- destruct (Hcov t' Hin) as (w & Hw & Hi).
           exists w. split; [right; exact Hw | exact Hi].
    + destruct (IH (fst cur, t + r)) as (Hlen & (e & rest & Heq & He) & Hcov);
        [cbn [fst snd]; lia | exact Hs' | exact Hnext |].
      cbn [fst snd] in *.
      split; [exact Hlen |]. split.
      * exists e, rest. split; [exact Heq | lia].
      * intros t' [<- | Hin]; [| apply Hcov, Hin].
        exists (fst cur, e). split; [rewrite Heq; left; reflexivity |].
        unfold inside. cbn [fst snd]. lia.
Qed.

(** X6.  On timestamps in ascending order and a resolution that is not
    negative, every window is at least one resolution long, and every
    timestamp [t] has [[t, t + resolution]] inside one of the windows: no
    firing is lost. *)
Theorem compute_time_windows_covers (r : Z) (ts : list Z) :
  0 <= r -> StronglySorted Z.le ts ->
  Forall (fun w => fst w + r <= snd w) (_compute_time_windows r ts) /\
  (forall t, In t ts ->
             exists w, In w (_compute_time_windows r ts) /\
                       inside (t, t + r) w).
Proof.
  intros Hr Hs. destruct ts as [|t1 rest].
  - split; [constructor | intros t []].
  - rewrite compute_time_windows_pass.
    destruct (spec_windows_from_covers r (t1 :: rest) (t1, t1 + r))
      as (Hlen & _ & Hcov).
    + cbn [fst snd]. lia.
    + exact Hs.
    + cbn [snd]. inversion Hs as [|? ? _ Ht]; subst.
      constructor; [lia |].
      eapply Forall_impl; [| exact Ht]. cbv beta. intros. lia.
    + split; assumption.
Qed.

Lemma compute_time_windows_covers_witness :
  Forall (fun w => fst w + 10 <= snd w) (_compute_time_windows 10 [0; 5; 20]) /\
  (forall t, In t [0; 5; 20] ->
             exists w, In w (_compute_time_windows 10 [0; 5; 20]) /\
                       inside (t, t + 10) w).
Proof.
  apply (compute_time_windows_covers 10 [0; 5; 20]).
  - lia.
  - repeat constructor; lia.
Defined.

(** X7.  With a resolution that is not negative there are never more
    windows than timestamps, and there is no window exactly when there is
    no timestamp. *)
Theorem compute_time_windows_count (r : Z) (ts : list Z) :
  0 <= r ->
  (length (_compute_time_windows r ts) <= length ts)%nat /\
  (_compute_time_windows r ts = [] <-> ts = []).
Proof.
  intros Hr. split; [apply compute_time_windows_length, Hr |].
  split; intros H.
  - destruct ts as [|t1 rest]; [reflexivity |].
    rewrite compute_time_windows_pass in H.
    destruct (spec_windows_from_head r (t1 :: rest) (t1, t1 + r))
      as (e & ws & Heq).
    rewrite Heq in H. discriminate.
  - subst. reflexivity.
Qed.

Lemma compute_time_windows_count_witness :
  (length (_compute_time_windows 10%Z [0; 5; 20]%Z) <=
   length [0; 5; 20]%Z)%nat /\
  (_compute_time_windows 10 [0; 5; 20] = [] <-> [0; 5; 20] = []).
Proof. apply (compute_time_windows_count 10 [0; 5; 20]). lia. Defined.

Lemma spec_windows_from_close (r : Z) (ts : list Z) :
  forall t0 cur,
    close_spaced r (t0 :: ts) -> snd cur = t0 + r ->
    spec_windows_from r cur ts = [(fst cur, last (t0 :: ts) 0 + r)].
Proof.
  induction ts as [|t ts IH]; intros t0 cur Hc Hcur; cbn [spec_windows_from].
  - cbn [last]. rewrite <- Hcur. destruct cur; reflexivity.
  - destruct Hc as [Ht Hc].
    destruct (Z.ltb_spec (snd cur) t) as [Hlt | _]; [lia |].
    rewrite (IH t (fst cur, t + r) Hc eq_refl). reflexivity.
Qed.

Lemma spec_windows_from_wide (r : Z) (ts : list Z) :
  forall t0 cur,
    wide_spaced r (t0 :: ts) -> snd cur = t0 + r ->
    spec_windows_from r cur ts = cur :: map (fun t => (t, t + r)) ts.
Proof.
  induction ts as [|t ts IH]; intros t0 cur Hc Hcur; cbn [spec_windows_from map].
  - reflexivity.
  - destruct Hc as [Ht Hc].
    destruct (Z.ltb_spec (snd cur) t) as [_ | Hge]; [| lia].
    rewrite (IH t (t, t + r) Hc eq_refl). reflexivity.
Qed.

(** X8.  With a resolution that is not negative: timestamps each at most
    one resolution after the one before give a single window, from the
    first timestamp to the last plus the resolution; timestamps each more
    than one resolution after the one before get a window each. *)
Theorem compute_time_windows_bridging (r : Z) :
  0 <= r ->
  (forall t1 rest,
      close_spaced r (t1 :: rest) ->
      _compute_time_windows r (t1 :: rest) =
      [(t1, last (t1 :: rest) 0 + r)]) /\
  (forall ts,
      wide_spaced r ts ->
      _compute_time_windows r ts = map (fun t => (t, t + r)) ts).
Proof.
  intros Hr. split.
  - intros t1 rest Hc.
    rewrite compute_time_windows_refines by exact Hr.
    apply (spec_windows_from_close r rest t1 (t1, t1 + r) Hc eq_refl).
  - intros [|t1 rest] Hw; [reflexivity |].
    rewrite compute_time_windows_refines by exact Hr.
    apply (spec_windows_from_wide r rest t1 (t1, t1 + r) Hw eq_refl).
Qed.

Lemma compute_time_windows_bridging_witness :
  _compute_time_windows 10 [0; 10; 15] = [(0, last [0; 10; 15] 0 + 10)] /\
  _compute_time_windows 10 [0; 11; 30] =
  map (fun t => (t, t + 10)) [0; 11; 30].
Proof.
  split.
  - apply (proj1 (compute_time_windows_bridging 10 ltac:(lia)) 0 [10; 15]).
    simpl. lia.
  - apply (proj2 (compute_time_windows_bridging 10 ltac:(lia)) [0; 11; 30]).
    simpl. lia.
Defined.

(** ** Window compression, further *)

Lemma sorted_cons {A : Type} (key : A -> Z) (reverse : bool) (x : A)
    (l : list A) :
  sorted key reverse (x :: l) =
  insert_sorted
    (fun a b => if reverse then key b <=? key a else key a <=? key b)
    x (sorted key reverse l).
Proof. reflexivity. Qed.

Lemma sorted_ordered_disjoint (ws : list Window) :
  ordered_disjoint ws -> sorted fst false ws = ws.
Proof.
  induction ws as [|w ws IH]; [reflexivity |].
  intros [Hw Hws]. rewrite sorted_cons, (IH Hws).
  destruct ws as [|w' ws]; [reflexivity |].
  cbn [insert_sorted]. destruct Hw as [Hle _].
  apply Z.leb_le in Hle. rewrite Hle. reflexivity.
Qed.

Lemma spec_merge_from_ordered_disjoint (ws : list Window) :
  forall cur, ordered_disjoint (cur :: ws) -> spec_merge_from cur ws = cur :: ws.
Proof.
  induction ws as [|[s e] ws IH]; intros cur [Hc Hws]; [reflexivity |].
  cbn [spec_merge_from]. cbn [fst snd] in Hc.
  destruct (Z.ltb_spec s (snd cur)) as [Hlt | _]; [lia |].
  rewrite (IH (s, e) Hws). reflexivity.
Qed.

(** X9.  Windows that already are in ascending order of start and do not
    overlap, touching ones included, come back unchanged; so compressing a
    second time changes nothing. *)
Theorem compress_time_windows_idempotent :
  (forall ws, ordered_disjoint ws -> _compress_time_windows ws = ws) /\
  (forall ws,
      _compress_time_windows (_compress_time_windows ws) =
      _compress_time_windows ws).
Proof.
  assert (Hfix : forall ws,
             ordered_disjoint ws -> _compress_time_windows ws = ws).
  { intros ws H. rewrite compress_time_windows_refines.
    rewrite (sorted_ordered_disjoint ws H).
    destruct ws as [|w ws]; [reflexivity |].
    apply spec_merge_from_ordered_disjoint, H. }
  split; [exact Hfix |].
  intros ws. apply Hfix, compress_ordered_disjoint.
Qed.

Lemma compress_time_windows_idempotent_witness :
  _compress_time_windows [(0, 10); (10, 20); (25, 30)] =
  [(0, 10); (10, 20); (25, 30)].
Proof.
  apply (proj1 compress_time_windows_idempotent).
  simpl. lia.
Defined.

Lemma spec_merge_from_length (ws : list Window) :
  forall cur, (length (spec_merge_from cur ws) <= S (length ws))%nat.
Proof.
  induction ws as [|[s e] ws IH]; intros cur; cbn [spec_merge_from length].
  - lia.
  - destruct (s <? snd cur); cbn [length].
    + specialize (IH (fst cur, Z.max (snd cur) e)). lia.
    + specialize (IH (s, e)). lia.
Qed.

(** X10.  Compression never adds a window, and returns no window exactly
    when it is given none. *)
Theorem compress_time_windows_count (ws : list Window) :
  (length (_compress_time_windows ws) <= length ws)%nat /\
  (_compress_time_windows ws = [] <-> ws = []).
Proof.
  rewrite compress_time_windows_refines.
  pose proof (sorted_perm fst false ws) as Hp.
  pose proof (Permutation_length Hp) as Hl.
  destruct (sorted fst false ws) as [|w rest] eqn:Hs.
  - apply Permutation_sym, Permutation_nil in Hp. subst.
    split; [apply Nat.le_refl | split; reflexivity].
  - cbn [spec_merge]. split.
    + pose proof (spec_merge_from_length rest w) as Hm.
      cbn [length] in Hl. unfold Window in *. lia.
    + destruct (spec_merge_from_head rest w) as (e & r & Heq).
      rewrite Heq. split; [discriminate |].
      intros ->. apply Permutation_nil in Hp. discriminate.
Qed.

Lemma spec_merge_from_inside (ws : list Window) :
  forall cur,
    StronglySorted (fun a b => fst a <= fst b) (cur :: ws) ->
    (exists e rest,
        spec_merge_from cur ws = (fst cur, e) :: rest /\ snd cur <= e) /\
    (forall w, In w ws ->
               exists w', In w' (spec_merge_from cur ws) /\ inside w w').
Proof.
  induction ws as [|[s e] ws IH]; intros cur Hs; cbn [spec_merge_from].
  - split; [| intros w []].
    exists (snd cur), []. split; [destruct cur; reflexivity | lia].
  - inversion Hs as [|? ? Hws Hcur]; subst.
    inversion Hws as [|? ? Hws' Hse]; subst.
    inversion Hcur as [|? ? Hcs Hcur']; subst. cbn [fst] in Hcs.
    destruct (s <? snd cur).
    + destruct (IH (fst cur, Z.max (snd cur) e))
        as ((e' & rest & Heq & He) & Hin);
        [constructor; assumption |].
      cbn [fst snd] in *. split.
      * exists e', rest. split; [exact Heq | lia].
      * intros w [<- | Hw]; [| apply Hin, Hw].
        exists (fst cur, e'). split; [rewrite Heq; left; reflexivity |].
        unfold inside. cbn [fst snd]. lia.
    + destruct (IH (s, e) Hws) as ((e' & rest & Heq & He) & Hin).
      cbn [fst snd] in *. split.
      * exists (snd cur), (spec_merge_from (s, e) ws).
        split; [destruct cur; reflexivity | lia].
      * intros w [<- | Hw].
        -- exists (s, e'). split; [right; rewrite Heq; left; reflexivity |].
           unfold inside. cbn [fst snd]. lia.
        -- destruct (Hin w Hw) as (w' & Hw' & Hi).
           exists w'. split; [right; exact Hw' | exact Hi].
Qed.

(** X11.  Every window given to the compression lies inside one of the
    windows it returns: no firing time is dropped. *)
Theorem compress_time_windows_covers (ws : list Window) (w : Window) :
  In w ws ->
  exists w', In w' (_compress_time_windows ws) /\ inside w w'.
Proof.
  intros Hw. rewrite compress_time_windows_refines.
  pose proof (sorted_ordered fst false ws) as Hs.
  apply (Permutation_in _ (sorted_perm fst false ws)) in Hw.
  destruct (sorted fst false ws) as [|cur rest]; [destruct Hw |].
  cbn [spec_merge].
  destruct (spec_merge_from_inside rest cur Hs)
    as ((e & r & Heq & He) & Hin).
  destruct Hw as [<- | Hw]; [| apply Hin, Hw].
  exists (fst cur, e). split; [rewrite Heq; left; reflexivity |].
  unfold inside. cbn [fst snd]. lia.
Qed.

Lemma compress_time_windows_covers_witness :
  exists w', In w' (_compress_time_windows [(5, 20); (0, 10)]) /\
             inside (5, 20) w'.
Proof.
  apply (compress_time_windows_covers [(5, 20); (0, 10)] (5, 20)).
  left. reflexivity.
Defined.

Lemma spec_merge_from_endpoints (ws : list Window) :
  forall cur w',
    In w' (spec_merge_from cur ws) ->
    In (fst w') (fst cur :: map fst ws) /\
    In (snd w') (snd cur :: map snd ws).
Proof.
  induction ws as [|[s e] ws IH]; intros cur w'; cbn [spec_merge_from map].
  - intros [<- | []]. split; left; reflexivity.
  - destruct (s <? snd cur).
    + intros H. destruct (IH _ _ H) as [[Hf | Hf] [Hs | Hs]];
        cbn [fst snd] in *.
      * split; [left; exact Hf |].
        destruct (Z.max_spec (snd cur) e) as [[_ Hm] | [_ Hm]];
          rewrite Hm in Hs; [right; left | left]; exact Hs.
      * split; [left; exact Hf | right; right; exact Hs].
      * split; [right; right; exact Hf |].
        destruct (Z.max_spec (snd cur) e) as [[_ Hm] | [_ Hm]];
          rewrite Hm in Hs; [right; left | left]; exact Hs.
      * split; right; right; assumption.
    + intros [<- | H]; [split; left; reflexivity |].
      destruct (IH _ _ H) as [Hf Hs]. cbn [fst snd] in *.
      split; right; assumption.
Qed.

Lemma compress_endpoints (ws : list Window) (w' : Window) :
  In w' (_compress_time_windows ws) ->
  In (fst w') (map fst ws) /\ In (snd w') (map snd ws).
Proof.
  rewrite compress_time_windows_refines.
  pose proof (Permutation_sym (sorted_perm fst false ws)) as Hp.
  destruct (sorted fst false ws) as [|cur rest]; [intros [] |].
  cbn [spec_merge]. intros H.
  destruct (spec_merge_from_endpoints rest cur w' H) as [Hf Hs].
  split.
  - apply (Permutation_in _ (Permutation_map fst Hp)). exact Hf.
  - apply (Permutation_in _ (Permutation_map snd Hp)). exact Hs.
Qed.

(** X12.  Compression invents no instant: every window it returns starts
    where one of the given windows starts and ends where one of them
    ends. *)
Theorem compress_time_windows_endpoints (ws : list Window) (w' : Window) :
  In w' (_compress_time_windows ws) ->
  In (fst w') (map fst ws) /\ In (snd w') (map snd ws).
Proof. apply compress_endpoints. Qed.

Lemma compress_time_windows_endpoints_witness :
  In (fst (0, 20)) (map fst [(5, 20); (0, 10)]) /\
  In (snd (0, 20)) (map snd [(5, 20); (0, 10)]).
Proof.
  apply (compress_time_windows_endpoints [(5, 20); (0, 10)] (0, 20)).
  left. reflexivity.
Defined.

Lemma sum_durations_perm (a b : list Window) :
  Permutation a b -> sum_durations a = sum_durations b.
Proof.
  induction 1; cbn [sum_durations]; lia.
Qed.

Lemma spec_merge_from_total (ws : list Window) :
  forall cur,
    well_formed cur -> Forall well_formed ws ->
    sum_durations (spec_merge_from cur ws) <=
    (snd cur - fst cur) + sum_durations ws.
Proof.
  induction ws as [|[s e] ws IH]; intros cur Hc Hws;
    cbn [spec_merge_from sum_durations].
  - lia.
  - inversion Hws as [|? ? Hse Hws']; subst.
    unfold well_formed in Hc, Hse. cbn [fst snd] in *.
    destruct (Z.ltb_spec s (snd cur)) as [Hlt | Hge].
    + specialize (IH (fst cur, Z.max (snd cur) e)).
      cbn [fst snd] in IH. unfold well_formed at 1 in IH. cbn [fst snd] in IH.
      specialize (IH ltac:(lia) Hws'). lia.
    + cbn [sum_durations]. specialize (IH (s, e) Hse Hws').
      cbn [fst snd] in IH. lia.
Qed.

(** X13.  On windows with [start <= end], compression never lengthens the
    total firing time. *)
Theorem compress_time_windows_total (ws : list Window) :
  Forall well_formed ws ->
  _total_time (_compress_time_windows ws) <= _total_time ws.
Proof.
  intros H. rewrite !total_time_sum, compress_time_windows_refines.
  pose proof (sorted_perm fst false ws) as Hp.
  rewrite (sum_durations_perm _ _ Hp).
  assert (Hs : Forall well_formed (sorted fst false ws))
    by (eapply Permutation_Forall; [exact Hp | exact H]).
  destruct (sorted fst false ws) as [|cur rest]; [apply Z.le_refl |].
  inversion Hs; subst. cbn [spec_merge sum_durations].
  apply spec_merge_from_total; assumption.
Qed.

Lemma compress_time_windows_total_witness :
  _total_time (_compress_time_windows [(0, 10); (5, 20)]) <=
  _total_time [(0, 10); (5, 20)].
Proof.
  apply (compress_time_windows_total [(0, 10); (5, 20)]).
  repeat constructor; unfold well_formed; simpl; lia.
Defined.

(** ** Total firing time, further *)

Lemma sum_durations_app (a b : list Window) :
  sum_durations (a ++ b) = sum_durations a + sum_durations b.
Proof.
  induction a as [|w a IH]; cbn [app sum_durations]; [reflexivity | lia].
Qed.

Lemma sum_durations_nonneg (ws : list Window) :
  Forall well_formed ws -> 0 <= sum_durations ws.
Proof.
  induction 1 as [|w ws Hw _ IH]; cbn [sum_durations]; [lia |].
  unfold well_formed in Hw. lia.
Qed.

(** X14.  The total time of two lists of windows put end to end is the sum
    of their total times, and the total time of windows with
    [start <= end] is never negative. *)
Theorem total_time_additive_nonneg :
  (forall a b, _total_time (a ++ b) = _total_time a + _total_time b) /\
  (forall ws, Forall well_formed ws -> 0 <= _total_time ws).
Proof.
  split.
  - intros a b. rewrite !total_time_sum. apply sum_durations_app.
  - intros ws H. rewrite total_time_sum. apply sum_durations_nonneg, H.
Qed.

Lemma total_time_additive_nonneg_witness :
  0 <= _total_time [(0, 10); (20, 25)].
Proof.
  apply (proj2 total_time_additive_nonneg [(0, 10); (20, 25)]).
  repeat constructor; unfold well_formed; simpl; lia.
Defined.

(** ** The aggregator, further *)

Lemma list_sum_perm (a b : list nat) :
  Permutation a b -> list_sum a = list_sum b.
Proof. unfold list_sum. induction 1; cbn [fold_right] in *; lia. Qed.

(** X15.  The summary has one entry per alert name: the names of the
    displayed summaries are pairwise distinct, and they are exactly the
    values of the [alertname] column in the filtered table. *)
Theorem one_summary_per_alert_name (v : View) (report : Report)
    (df : DataFrame) (out : TemplateVars) :
  _template_vars v report df = Ok out ->
  exists df',
    firing_table v df = Ok df' /\
    NoDup (map alertname (summary out)) /\
    forall n,
      In n (map alertname (summary out)) <->
      In n (map (fun r => label r "alertname") (rows df')).
Proof.
  intros H.
  destruct (template_vars_inv _ _ _ _ H)
    as (df' & names & summ & Hf & Ha & H2 & Hs & _).
  destruct (summaries_names _ _ _ _ H2) as [Hnames _].
  unfold alert_names in Ha.
  destruct (has_column df' "alertname"); [| discriminate].
  inversion Ha as [Hu]. clear Ha.
  assert (Hp : Permutation names (map alertname (summary out))).
  { rewrite Hs, <- Hnames. apply Permutation_map, sorted_perm. }
  exists df'. split; [exact Hf |]. split.
  - eapply Permutation_NoDup; [exact Hp |]. rewrite <- Hu. apply unique_NoDup.
  - intros n.
    rewrite <- (unique_In (map (fun r => label r "alertname") (rows df')) n).
    rewrite Hu. split.
    + apply Permutation_in, Permutation_sym, Hp.
    + apply Permutation_in, Hp.
Qed.

Lemma one_summary_per_alert_name_witness :
  exists df',
    firing_table view_10s two_alerts = Ok df' /\
    NoDup (map alertname (summary two_alerts_vars)) /\
    forall n,
      In n (map alertname (summary two_alerts_vars)) <->
      In n (map (fun r => label r "alertname") (rows df')).
Proof.
  apply (one_summary_per_alert_name view_10s report_1000s two_alerts
           two_alerts_vars).
  vm_compute. reflexivity.
Defined.

(** X16.  The timeline has one entry for each window of each displayed
    summary, no more and no fewer. *)
Theorem timeline_one_entry_per_window (v : View) (report : Report)
    (df : DataFrame) (out : TemplateVars) :
  _template_vars v report df = Ok out ->
  length (timeline out) =
  list_sum (map (fun s => length (windows s)) (summary out)).
Proof.
  intros H.
  destruct (template_vars_inv _ _ _ _ H)
    as (df' & names & summ & _ & _ & _ & Hs & _ & Ht & _).
  rewrite Ht, length_map, length_concat, map_map, Hs.
  apply list_sum_perm, Permutation_map, sorted_perm.
Qed.

Lemma timeline_one_entry_per_window_witness :
  length (timeline two_alerts_vars) =
  list_sum (map (fun s => length (windows s)) (summary two_alerts_vars)).
Proof.
  apply (timeline_one_entry_per_window view_10s report_1000s two_alerts
           two_alerts_vars).
  vm_compute. reflexivity.
Defined.

(** X17.  A summary never has more windows than firings, and has no window
    exactly when it has no firing. *)
Theorem windows_at_most_num_firings (v : View) (report : Report)
    (df : DataFrame) (out : TemplateVars) :
  _template_vars v report df = Ok out ->
  Forall (fun s =>
            (length (windows s) <= num_firings s)%nat /\
            (windows s = [] <-> num_firings s = 0%nat))
    (summary out).
Proof.
  intros H.
  destruct (displayed_summaries v report df out
              (fun _ s =>
                 (length (windows s) <= num_firings s)%nat /\
                 (windows s = [] <-> num_firings s = 0%nat)))
    as (df' & _ & Hall); [| exact H | exact Hall].
  intros df' name s Hs.
  destruct (alert_summary_inv _ _ _ _ Hs) as (groups & _ & _ & Hw & _ & Hn).
  rewrite Hw, Hn.
  destruct (compress_time_windows_count
              (concat (map (_compute_time_windows (resolution v)) groups)))
    as [Hlen Hnil].
  split; [exact Hlen |]. rewrite Hnil. split.
  - intros ->. reflexivity.
  - apply length_zero_iff_nil.
Qed.

Lemma windows_at_most_num_firings_witness :
  Forall (fun s =>
            (length (windows s) <= num_firings s)%nat /\
            (windows s = [] <-> num_firings s = 0%nat))
    (summary two_alerts_vars).
Proof.
  apply (windows_at_most_num_firings view_10s report_1000s two_alerts
           two_alerts_vars).
  vm_compute. reflexivity.
Defined.

(** *** The filtered table *)

Lemma select_eq_some (df : DataFrame) (k v : string) :
  select_eq df k (Some v) =
  if has_column df k
  then Ok (mkDataFrame (columns df)
             (filter (fun r => label_is r k v) (rows df)))
  else Err (KeyError k).
Proof. reflexivity. Qed.

Lemma filter_filter_and {A : Type} (f g : A -> bool) (l : list A) :
  filter f (filter g l) = filter (fun x => g x && f x) l.
Proof.
  induction l as [|x l IH]; [reflexivity |].
  cbn [filter]. destruct (g x); cbn [filter andb]; rewrite IH; reflexivity.
Qed.

Lemma filter_all {A : Type} (f : A -> bool) (l : list A) :
  (forall x, f x = true) -> filter f l = l.
Proof.
  intros H. induction l as [|x l IH]; [reflexivity |].
  cbn [filter]. rewrite H, IH. reflexivity.
Qed.

Lemma label_filters_err (kvs : list (string * string)) (e : exn) :
  fold_left (fun acc kv => df <- acc ;; select_eq df (fst kv) (Some (snd kv)))
    kvs (Err e) = Err e.
Proof. induction kvs as [|kv kvs IH]; [reflexivity | exact IH]. Qed.

Lemma label_filters_ok (kvs : list (string * string)) :
  forall d,
    Forall (fun kv => has_column d (fst kv) = true) kvs ->
    fold_left (fun acc kv => df <- acc ;; select_eq df (fst kv) (Some (snd kv)))
      kvs (Ok d) =
    Ok (mkDataFrame (columns d) (filter (row_matches kvs) (rows d))).
Proof.
  induction kvs as [|kv kvs IH]; intros d H; cbn [fold_left bind].
  - destruct d as [cols rs]. cbn [columns rows].
    rewrite filter_all by reflexivity. reflexivity.
  - inversion H as [|? ? Hk Hkvs]; subst.
    rewrite select_eq_some, Hk, IH by exact Hkvs.
    cbn [columns rows]. rewrite filter_filter_and. reflexivity.
Qed.

Lemma firing_table_rows_aux (v : View) (df : DataFrame) :
  has_column df "alertstate" = true ->
  Forall (fun kv => has_column df (fst kv) = true) (labels v) ->
  firing_table v df =
  Ok (mkDataFrame
        (filter (fun c =>
                   negb (existsb (String.eqb c)
                           (["__name__"; "alertstate"]%string ++ ignore_labels v)))
           (columns df))
        (filter (fun r =>
                   label_is r "alertstate" "firing" && row_matches (labels v) r)
           (rows df))).
Proof.
  intros Hs Hl. unfold firing_table.
  rewrite select_eq_some, Hs. cbn [bind].
  rewrite label_filters_ok by exact Hl.
  cbn [bind columns rows]. rewrite filter_filter_and. reflexivity.
Qed.

(** X18.  When the table has the [alertstate] column and a column for
    every label the view filters on, the filtered table holds the rows
    that are firing and carry every one of those labels with the value
    asked for, in their order in the table, and the columns that are
    neither [__name__], [alertstate] nor ignored. *)
Theorem firing_table_rows (v : View) (df : DataFrame) :
  has_column df "alertstate" = true ->
  Forall (fun kv => has_column df (fst kv) = true) (labels v) ->
  firing_table v df =
  Ok (mkDataFrame
        (filter (fun c =>
                   negb (existsb (String.eqb c)
                           (["__name__"; "alertstate"]%string ++ ignore_labels v)))
           (columns df))
        (filter (fun r =>
                   label_is r "alertstate" "firing" && row_matches (labels v) r)
           (rows df))).
Proof. apply firing_table_rows_aux. Qed.

Lemma firing_table_rows_witness :
  firing_table view_10s two_alerts =
  Ok (mkDataFrame
        (filter (fun c =>
                   negb (existsb (String.eqb c)
                           (["__name__"; "alertstate"]%string ++
                            ignore_labels view_10s)))
           (columns two_alerts))
        (filter (fun r =>
                   label_is r "alertstate" "firing" &&
                   row_matches (labels view_10s) r)
           (rows two_alerts))).
Proof.
  apply (firing_table_rows view_10s two_alerts).
  - reflexivity.
  - constructor.
Defined.

(** X19.  A table without the [alertstate] column raises [KeyError] for it;
    a label filter on a label that is no column of the table raises
    [KeyError] for that label, where the labels before it in the filter
    are columns. *)
Theorem missing_column_raises (v : View) (report : Report) (df : DataFrame) :
  (has_column df "alertstate" = false ->
   _template_vars v report df = Err (KeyError "alertstate")) /\
  (forall pre k val post,
      has_column df "alertstate" = true ->
      labels v = pre ++ (k, val) :: post ->
      Forall (fun kv => has_column df (fst kv) = true) pre ->
      has_column df k = false ->
      _template_vars v report df = Err (KeyError k)).
Proof.
  split.
  - intros H. unfold _template_vars, firing_table.
    rewrite select_eq_some, H. reflexivity.
  - intros pre k val post Hs Hl Hpre Hk.
    unfold _template_vars, firing_table.
    rewrite select_eq_some, Hs, Hl. cbn [bind].
    rewrite fold_left_app, label_filters_ok by exact Hpre.
    cbn [fold_left bind fst snd].
    rewrite select_eq_some. unfold has_column in *. cbn [columns].
    rewrite Hk. rewrite label_filters_err. reflexivity.
Qed.

Lemma missing_column_raises_witness :
  _template_vars
    (mkView "prometheus" (10 * SECOND) ["instance"; "job"]%string
       [("severity", "warn"); ("team", "storage")]%string true)
    report_1000s two_alerts = Err (KeyError "team").
Proof.
  apply (proj2 (missing_column_raises _ report_1000s two_alerts)
           [("severity", "warn")]%string "team"%string "storage"%string []).
  - reflexivity.
  - reflexivity.
  - repeat constructor.
  - reflexivity.
Defined.

Lemma filter_idempotent {A : Type} (f : A -> bool) (l : list A) :
  filter f (filter f l) = filter f l.
Proof.
  induction l as [|x l IH]; [reflexivity |].
  cbn [filter]. destruct (f x) eqn:Hx; [| exact IH].
  cbn [filter]. rewrite Hx, IH. reflexivity.
Qed.

(** X20.  Rows that are not firing play no part: the view returns, or
    raises, the same on a table and on its firing rows alone. *)
Theorem pending_rows_ignored (v : View) (report : Report) (df : DataFrame) :
  _template_vars v report df = _template_vars v report (firing_rows df).
Proof.
  assert (H : firing_table v df = firing_table v (firing_rows df)).
  { unfold firing_table. rewrite !select_eq_some.
    unfold firing_rows at 2 3, has_column. cbn [columns rows].
    rewrite filter_idempotent. reflexivity. }
  unfold _template_vars. rewrite H. reflexivity.
Qed.

(** X21.  When the filtered table has no column besides [time], [value]
    and [alertname] (the alert carries no label that is not ignored) and
    its first row has an alert name, there is nothing left to group by and
    the view raises [ValueError]. *)
Theorem no_label_to_group_by (v : View) (report : Report)
    (df df' : DataFrame) (r0 : Sample) (rest : list Sample) (name : string) :
  resolution v <> 0 ->
  firing_table v df = Ok df' ->
  columns df' = ["time"; "value"; "alertname"]%string ->
  rows df' = r0 :: rest ->
  label r0 "alertname" = Some name ->
  _template_vars v report df = Err (ValueError "No group keys passed!").
Proof.
  intros Hr Hf Hcols Hrows Hname.
  unfold _template_vars. rewrite Hf. cbn [bind].
  unfold alert_summaries, alert_names, has_column.
  rewrite Hcols, Hrows. cbn [existsb String.eqb Ascii.eqb Bool.eqb orb].
  cbn [bind map unique mapM]. rewrite Hname.
  assert (Hs : alert_summary v df' (Some name) =
               Err (ValueError "No group keys passed!")).
  { unfold alert_summary, alert_label_groups.
    rewrite select_eq_some. unfold has_column. rewrite Hcols, Hrows.
    cbn [existsb String.eqb Ascii.eqb Bool.eqb orb bind].
    assert (Hl : label_is r0 "alertname" name = true)
      by (unfold label_is; rewrite Hname; apply String.eqb_refl).
    cbn [filter]. rewrite Hl.
    unfold drop_columns, dropna_all_columns, to_offset.
    cbn [columns rows filter existsb String.eqb Ascii.eqb Bool.eqb orb negb
         notna andb].
    destruct (Z.eqb_spec (resolution v) 0) as [H0 | _]; [contradiction |].
    reflexivity. }
  rewrite Hs. reflexivity.
Qed.

Lemma no_label_to_group_by_witness :
  _template_vars
    (mkView "prometheus" (10 * SECOND) ["instance"; "job"; "severity"]%string
       [] true)
    report_1000s one_series = Err (ValueError "No group keys passed!").
Proof.
  eapply (no_label_to_group_by _ report_1000s one_series).
  - vm_compute. discriminate.
  - vm_compute. reflexivity.
  - reflexivity.
  - reflexivity.
  - reflexivity.
Defined.

(** ** The datasource *)



Lemma existsb_eqb_In (c : string) (l : list string) :
  existsb (String.eqb c) l = true <-> In c l.
Proof.
  rewrite existsb_exists. split.
  - intros (x & Hin & Heq). apply String.eqb_eq in Heq. subst. exact Hin.
  - intros H. exists c. split; [exact H | apply String.eqb_refl].
Qed.

Lemma union_columns_spec (b : list string) :
  forall a,
    (exists extra, union_columns a b = a ++ extra) /\
    (forall c, In c (union_columns a b) <-> In c a \/ In c b) /\
    (NoDup a -> NoDup (union_columns a b)).
Proof.
  induction b as [|x b IH]; intros a; cbn [union_columns].
  - split; [exists []; symmetry; apply app_nil_r |].
    split; [intros c; cbn [In]; tauto | auto].
  - destruct (existsb (String.eqb x) a) eqn:Hx.
    + apply existsb_eqb_In in Hx.
      destruct (IH a) as (Hpre & Hin & Hnd).
      split; [exact Hpre |]. split; [| exact Hnd].
      intros c. rewrite Hin. cbn [In]. split; [tauto |].
      intros [H | [<- | H]]; auto.
    + assert (Hnx : ~ In x a)
        by (rewrite <- existsb_eqb_In, Hx; discriminate).
      destruct (IH (a ++ [x])) as ((extra & Hpre) & Hin & Hnd).
      split; [exists (x :: extra); rewrite Hpre, <- app_assoc; reflexivity |].
      split.
      * intros c. rewrite Hin, in_app_iff. cbn [In]. tauto.
      * intros Ha. apply Hnd.
        apply NoDup_app; [exact Ha | constructor; [intros [] | constructor] |].
        intros c Hc [<- | []]. exact (Hnx Hc).
Qed.

(** The rows [query] builds for one series. *)
Lemma series_frame_rows (m : Series) :
  rows (series_frame m) =
  map (fun t => mkSample t (series_metric m)) (series_times m).
Proof. reflexivity. Qed.

Lemma query_loop (ms : list Series) :
  forall d,
    let df := fold_left (fun df metric => append df (series_frame metric)) ms d in
    rows df = rows d ++ concat (map (fun m => rows (series_frame m)) ms) /\
    (exists extra, columns df = columns d ++ extra) /\
    (NoDup (columns d) -> NoDup (columns df)) /\
    (forall c, In c (columns d) -> In c (columns df)) /\
    (forall m k, In m ms -> In k (map fst (series_metric m)) ->
                 In k (columns df)).
Proof.
  induction ms as [|m ms IH]; intros d; cbn [fold_left map concat].
  - rewrite app_nil_r. split; [reflexivity |].
    split; [exists []; symmetry; apply app_nil_r |].
    split; [auto |]. split; [auto | intros m k []].
  - destruct (IH (append d (series_frame m)))
      as (Hrows & (extra & Hcols) & Hnd & Hkeep & Hlab).
    destruct (union_columns_spec (columns (series_frame m)) (columns d))
      as ((extra1 & Hpre1) & Hin1 & Hnd1).
    cbn [append columns rows] in *.
    split; [rewrite Hrows, <- app_assoc; reflexivity |].
    split; [exists (extra1 ++ extra);
            rewrite Hcols, Hpre1, <- app_assoc; reflexivity |].
    split; [intros Hd; apply Hnd, Hnd1, Hd |].
    split; [intros c Hc; apply Hkeep, Hin1; left; exact Hc |].
    intros m' k [<- | Hm'] Hk; [| exact (Hlab m' k Hm' Hk)].
    apply Hkeep, Hin1. right. unfold series_frame. cbn [columns].
    apply (proj1 (proj2 (union_columns_spec _ _))). right. exact Hk.
Qed.

(** X23.  A successful answer gives a table that holds one row per value,
    series after series in the order of the answer; its columns are
    pairwise distinct and, when there is a series, begin with [time] and
    [value]; every label of every series is a column. *)
Theorem query_result_shape (json : Response) (df : DataFrame) :
  Forall plain_labels (result_list json) ->
  query json = Ok df ->
  rows df =
    concat (map (fun m => map (fun t => mkSample t (series_metric m))
                            (series_times m))
              (result_list json)) /\
  NoDup (columns df) /\
  (result_list json <> [] ->
   exists lbls, columns df = "time"%string :: "value"%string :: lbls) /\
  (forall m k, In m (result_list json) -> In k (map fst (series_metric m)) ->
               In k (columns df)).
Proof.
  intros _ H. unfold query in H.
  destruct (opt_eqb (status json) (Some "success"%string)); [| discriminate].
  inversion H as [Hdf]. clear H.
  destruct (query_loop (result_list json) empty_frame)
    as (Hrows & _ & Hnd & _ & Hlab).
  cbn zeta in *. split; [exact Hrows |].
  split; [apply Hnd; constructor |]. split; [| exact Hlab].
  intros Hne. destruct (result_list json) as [|m ms]; [congruence |].
  cbn [fold_left].
  destruct (query_loop ms (append empty_frame (series_frame m)))
    as (_ & (extra & Hcols) & _).
  cbn zeta in Hcols. rewrite Hcols.
  unfold append, series_frame, empty_frame. cbn [columns].
  destruct (union_columns_spec (map fst (series_metric m))
              ["time"; "value"]%string) as ((extra1 & ->) & _).
  cbn [app union_columns existsb String.eqb Ascii.eqb Bool.eqb orb].
  destruct (union_columns_spec extra1 ["time"; "value"]%string)
    as ((extra2 & ->) & _).
  eexists. reflexivity.
Qed.

Lemma query_result_shape_witness :
  rows two_alerts =
    concat (map (fun m => map (fun t => mkSample t (series_metric m))
                            (series_times m))
              (result_list two_alerts_answer)) /\
  NoDup (columns two_alerts) /\
  (result_list two_alerts_answer <> [] ->
   exists lbls, columns two_alerts = "time"%string :: "value"%string :: lbls) /\
  (forall m k, In m (result_list two_alerts_answer) ->
               In k (map fst (series_metric m)) ->
               In k (columns two_alerts)).
Proof.
  apply (query_result_shape two_alerts_answer two_alerts).
  - repeat constructor; cbn; intuition discriminate.
  - vm_compute. reflexivity.
Defined.

Lemma opt_eqb_eq (a b : option string) : opt_eqb a b = true <-> a = b.
Proof.
  destruct a as [x|], b as [y|]; cbn [opt_eqb].
  - rewrite String.eqb_eq. split; congruence.
  - split; discriminate.
  - split; discriminate.
  - split; reflexivity.
Qed.

(** X24.  The datasource and the view together: an answer whose status is
    not [success] raises [ValueError]; a successful answer without any
    series reaches the view as a table without columns and raises
    [KeyError] there; a successful answer in which some series carries
    [alertstate] and every label the view filters on gets past the
    filters. *)
Theorem query_then_view (json : Response) (v : View) (report : Report) :
  (status json <> Some "success"%string ->
   (df <- query json ;; _template_vars v report df) =
   Err (ValueError "Got error response from Prometheus server")) /\
  (status json = Some "success"%string -> result_list json = [] ->
   (df <- query json ;; _template_vars v report df) =
   Err (KeyError "alertstate")) /\
  (status json = Some "success"%string ->
   Forall (fun k => exists m, In m (result_list json) /\
                              In k (map fst (series_metric m)))
     ("alertstate"%string :: map fst (labels v)) ->
   exists df df', query json = Ok df /\ firing_table v df = Ok df').
Proof.
  split; [| split].
  - intros H. unfold query.
    destruct (opt_eqb (status json) (Some "success"%string)) eqn:E;
      [apply opt_eqb_eq in E; contradiction | reflexivity].
  - intros Hs Hr. unfold query. rewrite Hs, Hr. reflexivity.
  - intros Hs Hall. unfold query. rewrite Hs.
    cbn [opt_eqb String.eqb Ascii.eqb Bool.eqb andb].
    destruct (query_loop (result_list json) empty_frame)
      as (_ & _ & _ & _ & Hlab).
    cbn zeta in Hlab.
    set (df := fold_left (fun df metric => append df (series_frame metric))
                 (result_list json) empty_frame) in *.
    assert (Hcol : Forall (fun k => has_column df k = true)
                     ("alertstate"%string :: map fst (labels v))).
    { eapply Forall_impl; [| exact Hall].
      intros k (m & Hm & Hk). unfold has_column.
      apply existsb_eqb_In. exact (Hlab m k Hm Hk). }
    inversion Hcol as [|? ? Hstate Hlabels]; subst.
    exists df. eexists. split; [reflexivity |].
    apply firing_table_rows_aux; [exact Hstate |].
    apply Forall_map in Hlabels. exact Hlabels.
Qed.

Lemma query_then_view_witness :
  exists df df',
    query (mkResponse (Some "success"%string)
             [mkSeries [("alertname", "disk-full"); ("alertstate", "firing")]%string
                [0; 10 * SECOND]]) = Ok df /\
    firing_table view_10s df = Ok df'.
Proof.
  apply (proj2 (proj2 (query_then_view
                         (mkResponse (Some "success"%string)
                            [mkSeries
                               [("alertname", "disk-full");
                                ("alertstate", "firing")]%string
                               [0; 10 * SECOND]])
                         view_10s report_1000s))).
  - reflexivity.
  - constructor; [| constructor].
    eexists. split; [left; reflexivity | right; left; reflexivity].
Defined.

(** ** Tables in ascending order of time *)

Lemma dt_round_mono (u t t' : Z) :
  0 < u -> t <= t' -> dt_round u t <= dt_round u t'.
Proof.
  intros Hu Ht. unfold dt_round. destruct (Z.odd u).
  - assert (Hc : forall x, x + (- x) mod u = - (u * ((- x) / u))).
    { intros x. pose proof (Z.div_mod (- x) u ltac:(lia)). lia. }
    rewrite !Hc.
    assert (Hd : (- (t' - u / 2)) / u <= (- (t - u / 2)) / u)
      by (apply Z.div_le_mono; lia).
    nia.
  - pose proof (Z.div_mod t u ltac:(lia)) as Hdt.
    pose proof (Z.div_mod t' u ltac:(lia)) as Hdt'.
    pose proof (Z.mod_pos_bound t u Hu) as Hm.
    pose proof (Z.mod_pos_bound t' u Hu) as Hm'.
    assert (Hq : t / u <= t' / u) by (apply Z.div_le_mono; lia).
    destruct (Z.eq_dec (t / u) (t' / u)) as [Heq | Hneq].
    + rewrite <- Heq in *.
      assert (Hrem : t mod u <= t' mod u) by lia.
      destruct (Z.ltb_spec (u / 2) (t mod u)),
               (Z.ltb_spec (u / 2) (t' mod u)),
               (Z.eqb_spec (t mod u) (u / 2)),
               (Z.eqb_spec (t' mod u) (u / 2)),
               (Z.odd (t / u));
        cbn [orb andb]; nia.
    + assert (Hlt : t / u + 1 <= t' / u) by lia.
      assert (Hup : (t / u + 1) * u <= (t' / u) * u) by nia.
      destruct ((u / 2 <? t mod u) || ((t mod u =? u / 2) && Z.odd (t / u))),
               ((u / 2 <? t' mod u) || ((t' mod u =? u / 2) && Z.odd (t' / u)));
        nia.
Qed.

Lemma sorted_times_filter (f : Sample -> bool) (l : list Sample) :
  StronglySorted Z.le (map time l) ->
  StronglySorted Z.le (map time (filter f l)).
Proof.
  induction l as [|r l IH]; cbn [map filter]; intros H; [constructor |].
  inversion H as [|? ? Hs Hr]; subst.
  destruct (f r); [| exact (IH Hs)].
  cbn [map]. constructor; [exact (IH Hs) |].
  rewrite Forall_forall in *. intros x Hx.
  apply Hr. rewrite in_map_iff in *.
  destruct Hx as (y & <- & Hy). apply filter_In in Hy as [Hy _].
  exists y. split; [reflexivity | exact Hy].
Qed.

Lemma sorted_times_round (u : Z) (l : list Sample) :
  0 < u ->
  StronglySorted Z.le (map time l) ->
  StronglySorted Z.le
    (map time (map (fun r => mkSample (dt_round u (time r)) (metric r)) l)).
Proof.
  intros Hu. induction l as [|r l IH]; cbn [map]; intros H; [constructor |].
  inversion H as [|? ? Hs Hr]; subst.
  constructor; [exact (IH Hs) |]. cbn [time].
  rewrite Forall_forall in *. intros x Hx.
  rewrite map_map in Hx. cbn [time] in Hx. rewrite in_map_iff in Hx.
  destruct Hx as (y & <- & Hy).
  apply dt_round_mono; [exact Hu |].
  apply Hr, in_map, Hy.
Qed.

Lemma label_filters_inv (kvs : list (string * string)) :
  forall d d',
    fold_left (fun acc kv => df <- acc ;; select_eq df (fst kv) (Some (snd kv)))
      kvs (Ok d) = Ok d' ->
    exists f, rows d' = filter f (rows d).
Proof.
  induction kvs as [|kv kvs IH]; intros d d'; cbn [fold_left bind].
  - intros H. inversion H; subst. exists (fun _ => true).
    symmetry. apply filter_all. reflexivity.
  - rewrite select_eq_some. destruct (has_column d (fst kv)).
    + intros H. destruct (IH _ _ H) as [f Hf]. cbn [rows] in Hf.
      rewrite filter_filter_and in Hf. eexists. exact Hf.
    + rewrite label_filters_err. discriminate.
Qed.

Lemma firing_table_inv (v : View) (df df' : DataFrame) :
  firing_table v df = Ok df' -> exists f, rows df' = filter f (rows df).
Proof.
  unfold firing_table. rewrite select_eq_some.
  destruct (has_column df "alertstate"); [| discriminate]. cbn [bind].
  destruct (fold_left _ (labels v) _) as [d|] eqn:Hfold; [| discriminate].
  cbn [bind]. intros H. inversion H; subst. cbn [drop_columns rows].
  destruct (label_filters_inv _ _ _ Hfold) as [f Hf]. cbn [rows] in Hf.
  rewrite filter_filter_and in Hf. eexists. exact Hf.
Qed.

Lemma alert_label_groups_sorted (v : View) (df : DataFrame)
    (name : option string) (groups : list (list Z)) :
  0 < resolution v ->
  StronglySorted Z.le (map time (rows df)) ->
  alert_label_groups v df name = Ok groups ->
  Forall (StronglySorted Z.le) groups.
Proof.
  intros Hr Hs. unfold alert_label_groups, select_eq.
  destruct (has_column df "alertname"); [| discriminate]. cbn [bind].
  unfold to_offset.
  destruct (Z.eqb_spec (resolution v) 0) as [H0 | _]; [lia |]. cbn [bind].
  match goal with
  | |- context [if ?b then _ else Err (KeyError "time")] => destruct b
  end; [| discriminate].
  cbn [bind]. unfold groupby_time.
  match goal with
  | |- context [match ?l with [] => Err _ | _ :: _ => _ end] =>
      destruct l; [discriminate |]
  end.
  intros H. inversion H; subst. clear H.
  apply Forall_forall. intros g Hg. apply in_map_iff in Hg.
  destruct Hg as (k & <- & _).
  cbn [rows dropna_all_columns drop_columns].
  apply sorted_times_filter, sorted_times_round; [exact Hr |].
  apply sorted_times_filter, Hs.
Qed.

(** X25.  When the rows of the query result are in ascending order of time
    and the resolution is positive, every window of every displayed
    summary has [start <= end], and no total time is negative. *)
Theorem ascending_rows_well_formed (v : View) (report : Report)
    (df : DataFrame) (out : TemplateVars) :
  0 < resolution v ->
  StronglySorted Z.le (map time (rows df)) ->
  _template_vars v report df = Ok out ->
  Forall (fun s => Forall well_formed (windows s) /\ 0 <= total_time s)
    (summary out).
Proof.
  intros Hr Hs H.
  destruct (template_vars_inv _ _ _ _ H)
    as (df' & names & summ & Hf & _ & H2 & Hsum & _).
  destruct (firing_table_inv _ _ _ Hf) as [f Hrows].
  assert (Hs' : StronglySorted Z.le (map time (rows df')))
    by (rewrite Hrows; apply sorted_times_filter, Hs).
  rewrite Hsum. eapply Permutation_Forall; [apply sorted_perm |].
  eapply Forall2_Forall_r; [| exact H2].
  intros n s Hsn. cbv beta in Hsn.
  destruct (alert_summary_inv _ _ _ _ Hsn) as (groups & Hg & _ & _ & Ht & _).
  assert (Hwf : Forall well_formed (windows s)).
  { apply (summary_windows_well_formed v df' n s groups);
      [lia | exact Hsn | exact Hg |].
    apply (alert_label_groups_sorted v df' n groups Hr Hs' Hg). }
  split; [exact Hwf |].
  rewrite Ht, total_time_sum. apply sum_durations_nonneg, Hwf.
Qed.

Lemma ascending_rows_well_formed_witness :
  Forall (fun s => Forall well_formed (windows s) /\ 0 <= total_time s)
    (summary one_series_vars).
Proof.
  apply (ascending_rows_well_formed view_10s report_1000s one_series
           one_series_vars).
  - vm_compute. reflexivity.
  - repeat constructor; vm_compute; discriminate.
  - vm_compute. reflexivity.
Defined.

(** ** Windows on the grid of the resolution *)

Lemma spec_windows_from_endpoints (r : Z) (ts : list Z) :
  forall cur w,
    In w (spec_windows_from r cur ts) ->
    (fst w = fst cur \/ In (fst w) ts) /\
    (snd w = snd cur \/ In (snd w - r) ts).
Proof.
  induction ts as [|t ts IH]; intros cur w; cbn [spec_windows_from].
  - intros [<- | []]. split; left; reflexivity.
  - destruct (snd cur <? t).
    + intros [<- | H]; [split; left; reflexivity |].
      destruct (IH _ _ H) as [Hf Hs]. cbn [fst snd In] in *. split.
      * destruct Hf as [Hf | Hf]; right; [left; symmetry; exact Hf | right; exact Hf].
      * destruct Hs as [Hs | Hs]; right; [left; lia | right; exact Hs].
    + intros H. destruct (IH _ _ H) as [Hf Hs]. cbn [fst snd In] in *. split.
      * destruct Hf as [Hf | Hf]; [left; exact Hf | right; right; exact Hf].
      * destruct Hs as [Hs | Hs]; right; [left; lia | right; exact Hs].
Qed.

Lemma compute_endpoints (r : Z) (ts : list Z) (w : Window) :
  In w (_compute_time_windows r ts) ->
  In (fst w) ts /\ In (snd w - r) ts.
Proof.
  destruct ts as [|t1 rest]; [intros [] |].
  rewrite compute_time_windows_pass. intros H.
  destruct (spec_windows_from_endpoints r (t1 :: rest) (t1, t1 + r) w H)
    as [Hf Hs].
  cbn [fst snd] in *. split.
  - destruct Hf as [-> | Hf]; [left; reflexivity | exact Hf].
  - destruct Hs as [Hs | Hs]; [left; lia | exact Hs].
Qed.

(** X26.  Construction invents no instant: every window starts at one of
    the timestamps and ends one resolution after one of them, on every
    sequence of timestamps and for every resolution. *)
Theorem compute_time_windows_endpoints (r : Z) (ts : list Z) (w : Window) :
  In w (_compute_time_windows r ts) ->
  In (fst w) ts /\ In (snd w - r) ts.
Proof. apply compute_endpoints. Qed.

Lemma compute_time_windows_endpoints_witness :
  In (fst (0, 15)) [0; 5; 20] /\ In (snd (0, 15) - 10) [0; 5; 20].
Proof.
  apply (compute_time_windows_endpoints 10 [0; 5; 20] (0, 15)).
  left. reflexivity.
Defined.

Lemma dt_round_multiple (u t : Z) : u <> 0 -> (u | dt_round u t).
Proof.
  intros Hu. unfold dt_round. destruct (Z.odd u).
  - exists (- ((- (t - u / 2)) / u)).
    pose proof (Z.div_mod (- (t - u / 2)) u Hu). lia.
  - match goal with |- context [if ?b then _ else _] => destruct b end;
      apply Z.divide_factor_r.
Qed.

Lemma alert_label_groups_on_grid (v : View) (df : DataFrame)
    (name : option string) (groups : list (list Z)) :
  alert_label_groups v df name = Ok groups ->
  Forall (Forall (fun t => (resolution v | t))) groups.
Proof.
  unfold alert_label_groups, select_eq.
  destruct (has_column df "alertname"); [| discriminate]. cbn [bind].
  unfold to_offset.
  destruct (Z.eqb_spec (resolution v) 0) as [H0 | Hr]; [discriminate |].
  cbn [bind].
  match goal with
  | |- context [if ?b then _ else Err (KeyError "time")] => destruct b
  end; [| discriminate].
  cbn [bind]. unfold groupby_time.
  match goal with
  | |- context [match ?l with [] => Err _ | _ :: _ => _ end] =>
      destruct l; [discriminate |]
  end.
  intros H. inversion H; subst. clear H.
  apply Forall_forall. intros g Hg. apply in_map_iff in Hg.
  destruct Hg as (k & <- & _).
  apply Forall_forall. intros t Ht. apply in_map_iff in Ht.
  destruct Ht as (y & <- & Hy). apply filter_In in Hy as [Hy _].
  cbn [rows] in Hy. apply in_map_iff in Hy. destruct Hy as (x & <- & _).
  cbn [time]. apply dt_round_multiple, Hr.
Qed.

Lemma sum_durations_on_grid (r : Z) (ws : list Window) :
  Forall (fun w => (r | fst w) /\ (r | snd w)) ws -> (r | sum_durations ws).
Proof.
  induction 1 as [|w ws [Hf Hs] _ IH]; cbn [sum_durations].
  - apply Z.divide_0_r.
  - apply Z.divide_add_r; [apply Z.divide_sub_r; assumption | exact IH].
Qed.

(** X27.  The times are rounded to the steps of the resolution before the
    windows are built, so every window of every displayed summary starts
    and ends on a whole multiple of the resolution, and every total time
    is a whole multiple of the resolution. *)
Theorem summary_on_resolution_grid (v : View) (report : Report)
    (df : DataFrame) (out : TemplateVars) :
  _template_vars v report df = Ok out ->
  Forall (fun s =>
            Forall (fun w => (resolution v | fst w) /\ (resolution v | snd w))
              (windows s) /\
            (resolution v | total_time s))
    (summary out).
Proof.
  intros H.
  destruct (displayed_summaries v report df out
              (fun _ s =>
                 Forall (fun w => (resolution v | fst w) /\
                                  (resolution v | snd w)) (windows s) /\
                 (resolution v | total_time s)))
    as (df' & _ & Hall); [| exact H | exact Hall].
  intros df' name s Hs.
  destruct (alert_summary_inv _ _ _ _ Hs) as (groups & Hg & _ & Hw & Ht & _).
  pose proof (alert_label_groups_on_grid _ _ _ _ Hg) as Hgrid.
  assert (Hall : Forall (fun w => (resolution v | fst w) /\
                                  (resolution v | snd w))
                   (concat (map (_compute_time_windows (resolution v)) groups))).
  { apply Forall_forall. intros w Hin. apply in_concat in Hin.
    destruct Hin as (ws & Hws & Hin). apply in_map_iff in Hws.
    destruct Hws as (g & <- & Hgin).
    rewrite Forall_forall in Hgrid. specialize (Hgrid g Hgin).
    rewrite Forall_forall in Hgrid.
    destruct (compute_endpoints _ _ _ Hin) as [Hf Hsn]. split.
    - apply Hgrid, Hf.
    - replace (snd w) with ((snd w - resolution v) + resolution v) by lia.
      apply Z.divide_add_r; [apply Hgrid, Hsn | apply Z.divide_refl]. }
  assert (Hwin : Forall (fun w => (resolution v | fst w) /\
                                  (resolution v | snd w)) (windows s)).
  { rewrite Hw. apply Forall_forall. intros w Hin.
    destruct (compress_endpoints _ _ Hin) as [Hf Hsn].
    rewrite Forall_forall in Hall.
    apply in_map_iff in Hf. destruct Hf as (a & Ha & Hain).
    apply in_map_iff in Hsn. destruct Hsn as (b & Hb & Hbin).
    rewrite <- Ha, <- Hb. split; [apply (Hall a Hain) | apply (Hall b Hbin)]. }
  split; [exact Hwin |].
  rewrite Ht, total_time_sum. apply sum_durations_on_grid, Hwin.
Qed.

Lemma summary_on_resolution_grid_witness :
  Forall (fun s =>
            Forall (fun w => (resolution view_10s | fst w) /\
                             (resolution view_10s | snd w))
              (windows s) /\
            (resolution view_10s | total_time s))
    (summary two_alerts_vars).
Proof.
  apply (summary_on_resolution_grid view_10s report_1000s two_alerts
           two_alerts_vars).
  vm_compute. reflexivity.
Defined.

(** X28.  Ignoring a label that is no column of the table changes nothing
    and raises nothing: the view returns, or raises, what it does without
    that label in [ignore_labels]. *)
Theorem ignoring_absent_label (v : View) (report : Report) (df : DataFrame)
    (c : string) :
  has_column df c = false ->
  _template_vars
    (mkView (datasource v) (resolution v) (c :: ignore_labels v) (labels v)
       (show_timeline v))
    report df =
  _template_vars v report df.
Proof.
  intros Hc.
  assert (Hf : firing_table
                 (mkView (datasource v) (resolution v) (c :: ignore_labels v)
                    (labels v) (show_timeline v)) df =
               firing_table v df).
  { unfold firing_table. cbn [labels ignore_labels].
    destruct (select_eq df "alertstate" (Some "firing"%string)) as [d0|] eqn:H0;
      [| reflexivity].
    cbn [bind].
    destruct (fold_left _ (labels v) (Ok d0)) as [d|] eqn:Hfold;
      [| reflexivity].
    cbn [bind]. f_equal. unfold drop_columns. f_equal.
    assert (Hcols : columns d = columns df).
    { rewrite select_eq_some in H0.
      destruct (has_column df "alertstate"); [| discriminate].
      inversion H0; subst. clear H0.
      revert Hfold. generalize (filter (fun r => label_is r "alertstate" "firing")
                                  (rows df)).
      intros rs. revert rs. induction (labels v) as [|kv kvs IH]; intros rs.
      - cbn [fold_left]. intros H. inversion H; subst. reflexivity.
      - cbn [fold_left bind]. rewrite select_eq_some.
        destruct (has_column _ (fst kv));
          [| rewrite label_filters_err; discriminate].
        cbn [columns rows]. apply IH. }
    rewrite Hcols. apply filter_ext_in. intros x Hx.
    cbn [app existsb]. f_equal. f_equal. f_equal.
    destruct (String.eqb_spec x c) as [-> | _]; [| reflexivity].
    exfalso. apply existsb_eqb_In in Hx. unfold has_column in Hc.
    rewrite Hx in Hc. discriminate. }
  unfold _template_vars. rewrite Hf. reflexivity.
Qed.

Lemma ignoring_absent_label_witness :
  _template_vars
    (mkView (datasource view_10s) (resolution view_10s)
       ("team"%string :: ignore_labels view_10s) (labels view_10s)
       (show_timeline view_10s))
    report_1000s two_alerts =
  _template_vars view_10s report_1000s two_alerts.
Proof.
  apply (ignoring_absent_label view_10s report_1000s two_alerts "team").
  reflexivity.
Defined.

(** ** Timeline normalization *)

(** Python's documented roundings, as a check of [pyround]:
    [round(2.675, 2)] is [2.67], [round(0.125, 2)] is [0.12],
    [round(0.375, 2)] is [0.38], [round(1.005, 2)] is [1.0] and
    [round(-0.001, 2)] is [-0.0]. *)
Lemma pyround_examples :
  pyround (float_truediv (float_of_int 2675) (float_of_int 1000)) 2 =
    float_truediv (float_of_int 267) (float_of_int 100) /\
  pyround (float_truediv (float_of_int 125) (float_of_int 1000)) 2 =
    float_truediv (float_of_int 12) (float_of_int 100) /\
  pyround (float_truediv (float_of_int 375) (float_of_int 1000)) 2 =
    float_truediv (float_of_int 38) (float_of_int 100) /\
  pyround (float_truediv (float_of_int 1005) (float_of_int 1000)) 2 =
    float_of_int 1 /\
  pyround (float_truediv (float_of_int (-1)) (float_of_int 1000)) 2 =
    S754_zero true.
Proof. repeat split; vm_compute; reflexivity. Qed.
















